(** * DualSense HID report decoding (src/hid/hid_provider.ts)

    A shallow embedding of the value mappers, the connection classifier and
    the three report decoders of [HIDProvider], followed by the properties
    the specification states about them.

    JavaScript numbers are IEEE 754 binary64 values: they are modelled by
    Rocq's primitive floats wherever the source computes with fractions
    ([mapAxis], [mapTrigger]) and by [Z] wherever the source only handles
    integers (bytes, masks, the bitwise operators, which work on 32-bit
    two's-complement integers). *)

From Stdlib Require Import ZArith List Bool String Lia Floats Uint63.
From Stdlib Require Import Strings.Byte DecimalString.
Import ListNotations.

Local Open Scope Z_scope.

(** ** JavaScript arithmetic *)

Module JS.

(** ToInt32 of an integer-valued number: wrap into [-2^31, 2^31). *)
Definition ToInt32 (z : Z) : Z := (z + 2 ^ 31) mod 2 ^ 32 - 2 ^ 31.

(** [a << n], [a >> n], [a & b], [a | b] on numbers holding integers. *)
Definition shl (a n : Z) : Z := ToInt32 (Z.shiftl (ToInt32 a) (Z.land n 31)).
Definition sar (a n : Z) : Z := Z.shiftr (ToInt32 a) (Z.land n 31).
Definition band (a b : Z) : Z := Z.land (ToInt32 a) (ToInt32 b).
Definition bor (a b : Z) : Z := Z.lor (ToInt32 a) (ToInt32 b).

(** The number holding the integer [z] (exact for |z| < 2^53). *)
Definition number (z : Z) : float :=
  if z <? 0 then PrimFloat.opp (PrimFloat.of_uint63 (Uint63.of_Z (- z)))
  else PrimFloat.of_uint63 (Uint63.of_Z z).

(** Math.max and Math.min of two numbers (ECMAScript 21.3.2.24/25): NaN if
    either argument is NaN, and +0 is larger than -0. *)
Definition max (a b : float) : float :=
  if PrimFloat.is_nan a || PrimFloat.is_nan b then PrimFloat.nan
  else if PrimFloat.ltb a b then b
  else if PrimFloat.ltb b a then a
  else if PrimFloat.get_sign a then b else a.

Definition min (a b : float) : float :=
  if PrimFloat.is_nan a || PrimFloat.is_nan b then PrimFloat.nan
  else if PrimFloat.ltb a b then a
  else if PrimFloat.ltb b a then b
  else if PrimFloat.get_sign a then a else b.

(** Template literal rendering of a non-negative integer. *)
Definition toString (z : Z) : string := NilZero.string_of_int (Z.to_int z).

End JS.

Declare Scope js_scope.
Delimit Scope js_scope with js.
Infix "<<" := JS.shl (at level 30, no associativity) : js_scope.
Infix ">>" := JS.sar (at level 30, no associativity) : js_scope.
Infix ".&" := JS.band (at level 40, left associativity) : js_scope.
Infix ".|" := JS.bor (at level 50, left associativity) : js_scope.
Local Open Scope js_scope.

(** ** Value mappers *)

(** Maps a HID input of 0...n to -1...1 *)
Definition mapAxis (value : float) (max : float) : float :=
  ((2 / max) * JS.max 0 (JS.min max value) - 1)%float.

(** [mapAxis(value)] with the default [max = 255]. *)
Definition mapAxis255 (value : float) : float := mapAxis value 255%float.

(** Maps a HID input of 0...255 to 0...1 *)
Definition mapTrigger (value : float) : float :=
  ((1 / 255) * JS.max 0 (JS.min 255 value))%float.

(** Maps a HID input for either gyroscope or acceleration. *)
Definition mapGyroAccel (v0 v1 : Z) : Z :=
  let v := (v1 << 8) .| v0 in
  if v >? 0x7fff then v - 0x10000 else v.

(** ** Byte accessor *)

(** Result of a computation that may address past the end of the buffer;
    the error names the offending offset. *)
Inductive result (A : Type) : Type :=
| Ok (a : A)
| OutOfRange (offset : Z).
Arguments Ok {A} a.
Arguments OutOfRange {A} offset.

Definition bind {A B} (c : result A) (k : A -> result B) : result B :=
  match c with
  | Ok a => k a
  | OutOfRange o => OutOfRange o
  end.

Notation "x <- c ;; k" := (bind c (fun x => k))
  (at level 61, c at next level, right associativity).

(** Modelled from the spec: the [ByteArray] interface (src/hid/byte_array.ts)
    is not among the sources.  Section 4.1: given a buffer and a byte offset,
    return an 8-bit or little-endian 16-bit unsigned value; fail with
    OutOfRange if the offset (or offset+1 for 16-bit reads) exceeds the
    buffer length.  [byteLength] is the interface's [length]. *)
Definition ByteArray : Type := list byte.

Definition byteLength (buffer : ByteArray) : Z := Z.of_nat (List.length buffer).

Definition byteAt (buffer : ByteArray) (offset : Z) : option Z :=
  if offset <? 0 then None
  else option_map (fun b => Z.of_N (Byte.to_N b)) (nth_error buffer (Z.to_nat offset)).

Definition readUint8 (buffer : ByteArray) (offset : Z) : result Z :=
  match byteAt buffer offset with
  | Some v => Ok v
  | None => OutOfRange offset
  end.

Definition readUint16LE (buffer : ByteArray) (offset : Z) : result Z :=
  match byteAt buffer offset, byteAt buffer (offset + 1) with
  | Some lo, Some hi => Ok (lo + 256 * hi)
  | _, _ => OutOfRange offset
  end.

(** ** Canonical snapshot *)

(** Describes an observation of the input state of a Dualsense controller;
    one field per [InputId]. *)
Record DualsenseHIDState : Type := {
  LeftAnalogX : float;
  LeftAnalogY : float;
  RightAnalogX : float;
  RightAnalogY : float;
  LeftTrigger : float;
  RightTrigger : float;
  Triangle : bool;
  Circle : bool;
  Cross : bool;
  Square : bool;
  Dpad : Z;
  Up : bool;
  Down : bool;
  Left : bool;
  Right : bool;
  RightAnalogButton : bool;
  LeftAnalogButton : bool;
  Options : bool;
  Create : bool;
  RightTriggerButton : bool;
  LeftTriggerButton : bool;
  RightBumper : bool;
  LeftBumper : bool;
  Playstation : bool;
  TouchButton : bool;
  Mute : bool;
  Status : bool;
  TouchX0 : float;
  TouchY0 : float;
  TouchContact0 : bool;
  TouchId0 : Z;
  TouchX1 : float;
  TouchY1 : float;
  TouchContact1 : bool;
  TouchId1 : Z;
  GyroX : Z;
  GyroY : Z;
  GyroZ : Z;
  AccelX : Z;
  AccelY : Z;
  AccelZ : Z
}.

(** The integer handed to [mapAxis] for a touch coordinate: the packed
    16-bit read [raw], as the decoders reduce it before axis mapping. *)
Definition touchX (raw : Z) : Z := (raw << 20) >> 20.
Definition touchY (raw : Z) : Z := raw >> 4.

(** ** Provider state *)

(** The underlying HID device handle ([HIDDevice | HID]); only its presence
    matters here. *)
Inductive DeviceHandle : Type := WebHIDDevice | NodeHID.

Record Error : Type := { message : string }.

(** The fields of [HIDProvider] the code under study reads or writes.
    [wireless], [device] and [buffer] are optional in the source
    ([None] is [undefined]). *)
Record HIDProvider : Type := {
  device : option DeviceHandle;
  wireless : option bool;
  buffer : option ByteArray;
  unknownDevice : bool;
  oldFirmware : bool
}.

Definition DUAL_SENSE_USB_INPUT_REPORT_0x01_SIZE : Z := 63.
Definition DUAL_SENSE_BT_INPUT_REPORT_0x01_SIZE : Z := 9.
Definition DUAL_SENSE_BT_INPUT_REPORT_0x31_SIZE : Z := 77.

(** Debug: treat the device as if it were connected over Bluetooth / USB. *)
Definition setWireless (this : HIDProvider) : HIDProvider :=
  {| device := device this; wireless := Some true; buffer := buffer this;
     unknownDevice := unknownDevice this; oldFirmware := oldFirmware this |}.

Definition setWired (this : HIDProvider) : HIDProvider :=
  {| device := device this; wireless := Some false; buffer := buffer this;
     unknownDevice := unknownDevice this; oldFirmware := oldFirmware this |}.

(** Autodetects the "wireless" parameter based on the length of the buffer.
    Returns the updated provider and the errors handed to [onError], in call
    order. *)
Definition autodetectConnectionType (this : HIDProvider) (buf : ByteArray)
  : HIDProvider * list Error :=
  if byteLength buf =? DUAL_SENSE_USB_INPUT_REPORT_0x01_SIZE + 1 then
    ({| device := device this; wireless := Some false; buffer := buffer this;
        unknownDevice := unknownDevice this; oldFirmware := oldFirmware this |},
     [])
  else if byteLength buf =? DUAL_SENSE_BT_INPUT_REPORT_0x31_SIZE + 1 then
    ({| device := device this; wireless := Some true; buffer := buffer this;
        unknownDevice := unknownDevice this; oldFirmware := oldFirmware this |},
     [])
  else
    ({| device := device this; wireless := None; buffer := buffer this;
        unknownDevice := true; oldFirmware := oldFirmware this |},
     if negb (unknownDevice this)
     then [ {| message :=
                 String.append
                   "Cannot autodetect connection type, unexpected buffer size: "
                   (JS.toString (byteLength buf)) |} ]
     else []).

(** Reset the HIDProvider state when the device is disconnected *)
Definition reset (this : HIDProvider) : HIDProvider :=
  {| device := None; wireless := None; buffer := None;
     unknownDevice := false; oldFirmware := oldFirmware this |}.

(** Classifying a sequence of report buffers, one after the other; the
    errors of all calls are collected in order. *)
Fixpoint autodetectAll (this : HIDProvider) (bufs : list ByteArray)
  : HIDProvider * list Error :=
  match bufs with
  | [] => (this, [])
  | buf :: rest =>
      let '(this1, errs1) := autodetectConnectionType this buf in
      let '(this2, errs2) := autodetectAll this1 rest in
      (this2, errs1 ++ errs2)
  end.

(** ** Report decoders *)

(** Process a bluetooth input report of type 01. *)
Definition processBluetoothInputReport01 (buf : ByteArray)
  : result DualsenseHIDState :=
  buttonsAndDpad <- readUint8 buf 7 ;;
  let buttons := buttonsAndDpad >> 4 in
  let dpad := buttonsAndDpad .& 15 in
  miscButtons <- readUint8 buf 8 ;;
  lastButtons <- readUint8 buf 9 ;;
  leftAnalogX <- readUint8 buf 1 ;;
  leftAnalogY <- readUint8 buf 2 ;;
  rightAnalogX <- readUint8 buf 3 ;;
  rightAnalogY <- readUint8 buf 4 ;;
  leftTrigger <- readUint8 buf 8 ;;
  rightTrigger <- readUint8 buf 9 ;;
  gyroX0 <- readUint8 buf 16 ;;
  gyroX1 <- readUint8 buf 17 ;;
  gyroY0 <- readUint8 buf 18 ;;
  gyroY1 <- readUint8 buf 19 ;;
  gyroZ0 <- readUint8 buf 20 ;;
  gyroZ1 <- readUint8 buf 21 ;;
  accelX0 <- readUint8 buf 22 ;;
  accelX1 <- readUint8 buf 23 ;;
  accelY0 <- readUint8 buf 24 ;;
  accelY1 <- readUint8 buf 25 ;;
  accelZ0 <- readUint8 buf 26 ;;
  accelZ1 <- readUint8 buf 27 ;;
  touchId0 <- readUint8 buf 33 ;;
  touchContact0 <- readUint8 buf 33 ;;
  touchX0 <- readUint16LE buf 34 ;;
  touchY0 <- readUint16LE buf 35 ;;
  touchId1 <- readUint8 buf 37 ;;
  touchContact1 <- readUint8 buf 37 ;;
  touchX1 <- readUint16LE buf 38 ;;
  touchY1 <- readUint16LE buf 39 ;;
  status <- readUint8 buf 54 ;;
  Ok {|
    LeftAnalogX := mapAxis255 (JS.number leftAnalogX);
    LeftAnalogY := (- mapAxis255 (JS.number leftAnalogY))%float;
    RightAnalogX := mapAxis255 (JS.number rightAnalogX);
    RightAnalogY := (- mapAxis255 (JS.number rightAnalogY))%float;
    LeftTrigger := mapTrigger (JS.number leftTrigger);
    RightTrigger := mapTrigger (JS.number rightTrigger);
    Triangle := buttons .& 8 >? 0;
    Circle := buttons .& 4 >? 0;
    Cross := buttons .& 2 >? 0;
    Square := buttons .& 1 >? 0;
    Dpad := dpad;
    Up := (dpad <? 2) || (dpad =? 7);
    Down := (dpad >? 2) && (dpad <? 6);
    Left := (dpad >? 4) && (dpad <? 8);
    Right := (dpad >? 0) && (dpad <? 4);
    LeftTriggerButton := miscButtons .& 4 >? 0;
    RightTriggerButton := miscButtons .& 8 >? 0;
    LeftBumper := miscButtons .& 1 >? 0;
    RightBumper := miscButtons .& 2 >? 0;
    Create := miscButtons .& 16 >? 0;
    Options := miscButtons .& 32 >? 0;
    LeftAnalogButton := miscButtons .& 64 >? 0;
    RightAnalogButton := miscButtons .& 128 >? 0;
    Playstation := lastButtons .& 1 >? 0;
    TouchButton := lastButtons .& 2 >? 0;
    Mute := lastButtons .& 4 >? 0;
    GyroX := mapGyroAccel gyroX0 gyroX1;
    GyroY := mapGyroAccel gyroY0 gyroY1;
    GyroZ := mapGyroAccel gyroZ0 gyroZ1;
    AccelX := mapGyroAccel accelX0 accelX1;
    AccelY := mapGyroAccel accelY0 accelY1;
    AccelZ := mapGyroAccel accelZ0 accelZ1;
    TouchId0 := touchId0 .& 0x7f;
    TouchContact0 := touchContact0 .& 0x80 =? 0;
    TouchX0 := mapAxis (JS.number (touchX touchX0)) 1920;
    TouchY0 := mapAxis (JS.number (touchY touchY0)) 1080;
    TouchId1 := touchId1 .& 0x7f;
    TouchContact1 := touchContact1 .& 0x80 =? 0;
    TouchX1 := mapAxis (JS.number (touchX touchX1)) 1920;
    TouchY1 := mapAxis (JS.number (touchY touchY1)) 1080;
    Status := status .& 4 >? 0
  |}.

(** Process reports generated by an older Dualsense firmware *)
Definition processOldInputReport (this : HIDProvider) (buf : ByteArray)
  : result DualsenseHIDState :=
  let offset := match wireless this with Some true => 0 | _ => 1 end in
  buttonsAndDpad <- readUint8 buf (9 - offset) ;;
  let buttons := buttonsAndDpad >> 4 in
  let dpad := buttonsAndDpad .& 15 in
  miscButtons <- readUint8 buf (10 - offset) ;;
  lastButtons <- readUint8 buf (11 - offset) ;;
  leftAnalogX <- readUint8 buf (2 - offset) ;;
  leftAnalogY <- readUint8 buf (3 - offset) ;;
  rightAnalogX <- readUint8 buf (4 - offset) ;;
  rightAnalogY <- readUint8 buf (5 - offset) ;;
  leftTrigger <- readUint8 buf (6 - offset) ;;
  rightTrigger <- readUint8 buf (7 - offset) ;;
  gyroX <- readUint16LE buf (17 - offset) ;;
  gyroY <- readUint16LE buf (19 - offset) ;;
  gyroZ <- readUint16LE buf (21 - offset) ;;
  accelX <- readUint16LE buf (23 - offset) ;;
  accelY <- readUint16LE buf (25 - offset) ;;
  accelZ <- readUint16LE buf (27 - offset) ;;
  touchId0 <- readUint8 buf (34 - offset) ;;
  touchContact0 <- readUint8 buf (34 - offset) ;;
  touchX0 <- readUint16LE buf (35 - offset) ;;
  touchY0 <- readUint16LE buf (36 - offset) ;;
  touchId1 <- readUint8 buf (38 - offset) ;;
  touchContact1 <- readUint8 buf (38 - offset) ;;
  touchX1 <- readUint16LE buf (39 - offset) ;;
  touchY1 <- readUint16LE buf (40 - offset) ;;
  status <- readUint8 buf (55 - offset) ;;
  Ok {|
    LeftAnalogX := mapAxis255 (JS.number leftAnalogX);
    LeftAnalogY := (- mapAxis255 (JS.number leftAnalogY))%float;
    RightAnalogX := mapAxis255 (JS.number rightAnalogX);
    RightAnalogY := (- mapAxis255 (JS.number rightAnalogY))%float;
    LeftTrigger := mapTrigger (JS.number leftTrigger);
    RightTrigger := mapTrigger (JS.number rightTrigger);
    Triangle := buttons .& 8 >? 0;
    Circle := buttons .& 4 >? 0;
    Cross := buttons .& 2 >? 0;
    Square := buttons .& 1 >? 0;
    Dpad := dpad;
    Up := (dpad <? 2) || (dpad =? 7);
    Down := (dpad >? 2) && (dpad <? 6);
    Left := (dpad >? 4) && (dpad <? 8);
    Right := (dpad >? 0) && (dpad <? 4);
    LeftTriggerButton := miscButtons .& 4 >? 0;
    RightTriggerButton := miscButtons .& 8 >? 0;
    LeftBumper := miscButtons .& 1 >? 0;
    RightBumper := miscButtons .& 2 >? 0;
    Create := miscButtons .& 16 >? 0;
    Options := miscButtons .& 32 >? 0;
    LeftAnalogButton := miscButtons .& 64 >? 0;
    RightAnalogButton := miscButtons .& 128 >? 0;
    Playstation := lastButtons .& 1 >? 0;
    TouchButton := lastButtons .& 2 >? 0;
    Mute := lastButtons .& 4 >? 0;
    GyroX := gyroX;
    GyroY := gyroY;
    GyroZ := gyroZ;
    AccelX := accelX;
    AccelY := accelY;
    AccelZ := accelZ;
    TouchId0 := touchId0 .& 0x7f;
    TouchContact0 := touchContact0 .& 0x80 =? 0;
    TouchX0 := mapAxis (JS.number (touchX touchX0)) 1920;
    TouchY0 := mapAxis (JS.number (touchY touchY0)) 1080;
    TouchId1 := touchId1 .& 0x7f;
    TouchContact1 := touchContact1 .& 0x80 =? 0;
    TouchX1 := mapAxis (JS.number (touchX touchX1)) 1920;
    TouchY1 := mapAxis (JS.number (touchY touchY1)) 1080;
    Status := status .& 4 >? 0
  |}.

(** Process a USB input report of type 01. *)
Definition processUsbInputReport01 (buf : ByteArray)
  : result DualsenseHIDState :=
  buttonsAndDpad <- readUint8 buf 8 ;;
  let buttons := buttonsAndDpad >> 4 in
  let dpad := buttonsAndDpad .& 15 in
  miscButtons <- readUint8 buf 9 ;;
  lastButtons <- readUint8 buf 10 ;;
  leftAnalogX <- readUint8 buf 1 ;;
  leftAnalogY <- readUint8 buf 2 ;;
  rightAnalogX <- readUint8 buf 3 ;;
  rightAnalogY <- readUint8 buf 4 ;;
  leftTrigger <- readUint8 buf 5 ;;
  rightTrigger <- readUint8 buf 6 ;;
  gyroX0 <- readUint8 buf 16 ;;
  gyroX1 <- readUint8 buf 17 ;;
  gyroY0 <- readUint8 buf 18 ;;
  gyroY1 <- readUint8 buf 19 ;;
  gyroZ0 <- readUint8 buf 20 ;;
  gyroZ1 <- readUint8 buf 21 ;;
  accelX0 <- readUint8 buf 22 ;;
  accelX1 <- readUint8 buf 23 ;;
  accelY0 <- readUint8 buf 24 ;;
  accelY1 <- readUint8 buf 25 ;;
  accelZ0 <- readUint8 buf 26 ;;
  accelZ1 <- readUint8 buf 27 ;;
  touchId0 <- readUint8 buf 33 ;;
  touchContact0 <- readUint8 buf 33 ;;
  touchX0 <- readUint16LE buf 34 ;;
  touchY0 <- readUint16LE buf 35 ;;
  touchId1 <- readUint8 buf 37 ;;
  touchContact1 <- readUint8 buf 37 ;;
  touchX1 <- readUint16LE buf 38 ;;
  touchY1 <- readUint16LE buf 39 ;;
  status <- readUint8 buf 54 ;;
  Ok {|
    LeftAnalogX := mapAxis255 (JS.number leftAnalogX);
    LeftAnalogY := (- mapAxis255 (JS.number leftAnalogY))%float;
    RightAnalogX := mapAxis255 (JS.number rightAnalogX);
    RightAnalogY := (- mapAxis255 (JS.number rightAnalogY))%float;
    LeftTrigger := mapTrigger (JS.number leftTrigger);
    RightTrigger := mapTrigger (JS.number rightTrigger);
    Triangle := buttons .& 8 >? 0;
    Circle := buttons .& 4 >? 0;
    Cross := buttons .& 2 >? 0;
    Square := buttons .& 1 >? 0;
    Dpad := dpad;
    Up := (dpad <? 2) || (dpad =? 7);
    Down := (dpad >? 2) && (dpad <? 6);
    Left := (dpad >? 4) && (dpad <? 8);
    Right := (dpad >? 0) && (dpad <? 4);
    LeftTriggerButton := miscButtons .& 4 >? 0;
    RightTriggerButton := miscButtons .& 8 >? 0;
    LeftBumper := miscButtons .& 1 >? 0;
    RightBumper := miscButtons .& 2 >? 0;
    Create := miscButtons .& 16 >? 0;
    Options := miscButtons .& 32 >? 0;
    LeftAnalogButton := miscButtons .& 64 >? 0;
    RightAnalogButton := miscButtons .& 128 >? 0;
    Playstation := lastButtons .& 1 >? 0;
    TouchButton := lastButtons .& 2 >? 0;
    Mute := lastButtons .& 4 >? 0;
    GyroX := mapGyroAccel gyroX0 gyroX1;
    GyroY := mapGyroAccel gyroY0 gyroY1;
    GyroZ := mapGyroAccel gyroZ0 gyroZ1;
    AccelX := mapGyroAccel accelX0 accelX1;
    AccelY := mapGyroAccel accelY0 accelY1;
    AccelZ := mapGyroAccel accelZ0 accelZ1;
    TouchId0 := touchId0 .& 0x7f;
    TouchContact0 := touchContact0 .& 0x80 =? 0;
    TouchX0 := mapAxis (JS.number (touchX touchX0)) 1920;
    TouchY0 := mapAxis (JS.number (touchY touchY0)) 1080;
    TouchId1 := touchId1 .& 0x7f;
    TouchContact1 := touchContact1 .& 0x80 =? 0;
    TouchX1 := mapAxis (JS.number (touchX touchX1)) 1920;
    TouchY1 := mapAxis (JS.number (touchY touchY1)) 1080;
    Status := status .& 4 >? 0
  |}.

(** ** Reference definitions from the specification *)

(** The two's-complement reading of the 16-bit pattern [w]: bit 15 weighs
    [-2^15], the lower bits keep their weight. *)
Definition twosComplement16 (w : Z) : Z :=
  Z.land w (Z.ones 15) - (if Z.testbit w 15 then 2 ^ 15 else 0).

(** The d-pad decomposition in the specification's words. *)
Definition dpadUp (value : Z) : bool := (value <? 2) || (value =? 7).
Definition dpadDown (value : Z) : bool := (2 <? value) && (value <? 6).
Definition dpadLeft (value : Z) : bool := (4 <? value) && (value <? 8).
Definition dpadRight (value : Z) : bool := (0 <? value) && (value <? 4).

Definition dpadDirections (value : Z) : bool * bool * bool * bool :=
  (dpadUp value, dpadDown value, dpadLeft value, dpadRight value).

(** Up, Down, Left, Right of a snapshot. *)
Definition directions (s : DualsenseHIDState) : bool * bool * bool * bool :=
  (Up s, Down s, Left s, Right s).

(** The legacy decoder shifts every offset by one on a wired link. *)
Definition legacyOffset (this : HIDProvider) : Z :=
  match wireless this with Some true => 0 | _ => 1 end.

(** A motion field read as a raw little-endian 16-bit value at [offset],
    and as a byte pair passed through [mapGyroAccel]. *)
Definition motionRaw (buf : ByteArray) (offset value : Z) : Prop :=
  readUint16LE buf offset = Ok value.

Definition motionSigned (buf : ByteArray) (offset value : Z) : Prop :=
  exists lo hi,
    readUint8 buf offset = Ok lo /\ readUint8 buf (offset + 1) = Ok hi
    /\ value = mapGyroAccel lo hi.

(** A touch slot whose packed coordinates start at [offset]: the X and Y
    integers handed to [mapAxis] and the mapped values. *)
Definition touchSlot (buf : ByteArray) (offset : Z) (x y : float) : Prop :=
  exists rawX rawY,
    readUint16LE buf offset = Ok rawX /\ readUint16LE buf (offset + 1) = Ok rawY
    /\ x = mapAxis (JS.number (touchX rawX)) 1920
    /\ y = mapAxis (JS.number (touchY rawY)) 1080.

(** Integer clamp to [lo, hi]. *)
Definition clampZ (v lo hi : Z) : Z := Z.max lo (Z.min hi v).

(** ** Sample reports *)

(** A report of [len] bytes, zero except at the listed offsets. *)
Definition reportOf (len : nat) (assignments : list (nat * byte)) : ByteArray :=
  map (fun i =>
         match find (fun p => Nat.eqb (fst p) i) assignments with
         | Some p => snd p
         | None => x00
         end)
      (seq 0 len).

(** A wired report: sticks, triggers, Cross with d-pad 7, L1 and L2 button,
    touch-pad click, motion words with and without the sign bit, one touch
    contact. *)
Definition sampleUsbReport : ByteArray :=
  reportOf 64
    [ (0, x01); (1, x80); (2, x7f); (3, x00); (4, xff); (5, x10); (6, xff);
      (8, x27); (9, x05); (10, x02);
      (16, x34); (17, x92); (18, xff); (19, x7f); (20, x00); (21, x80);
      (22, x01); (23, x00); (24, xff); (25, xff); (26, x10); (27, x20);
      (33, x05); (34, x2c); (35, x41); (36, x1f);
      (37, x80); (54, x04) ]%nat.

(** A full wireless report (78 bytes): misc-button byte 8 and last-button
    byte 9 both non-zero. *)
Definition sampleBluetoothReport : ByteArray :=
  reportOf 78 [ (0, x31); (7, x48); (8, x21); (9, x04); (17, x80) ]%nat.

(** A report whose touch slot 0 has all coordinate bits set. *)
Definition saturatedTouchReport : ByteArray :=
  reportOf 64 [ (0, x01); (8, x08); (34, xff); (35, xff); (36, xff) ]%nat.

Definition idleProvider : HIDProvider :=
  {| device := None; wireless := None; buffer := None;
     unknownDevice := false; oldFirmware := false |}.

(** The error [autodetectConnectionType] hands to [onError] for a buffer of
    [len] bytes. *)
Definition cannotAutodetect (len : Z) : Error :=
  {| message :=
       String.append
         "Cannot autodetect connection type, unexpected buffer size: "
         (JS.toString len) |}.

(** A provider that has already flagged an unknown device. *)
Definition flaggedProvider : HIDProvider :=
  {| device := Some NodeHID; wireless := None; buffer := None;
     unknownDevice := true; oldFirmware := false |}.

(** [clamp v lo hi]: [v] cut to [hi] from above, then to [lo] from below,
    by plain comparisons; and the same as a three-way case distinction. *)
Definition clamp (v lo hi : float) : float :=
  let m := if (hi <? v)%float then hi else v in
  if (m <? lo)%float then lo else m.

Definition clampCases (v lo hi : float) : float :=
  if (v <? lo)%float then lo else if (hi <? v)%float then hi else v.

(** Floats through their IEEE 754 specification: the comparison of two
    numbers, being a zero of either sign, and being equal up to the sign of
    zero. *)
Definition cmp (x y : float) : option comparison :=
  SFcompare (Prim2SF x) (Prim2SF y).

Definition isZero (x : float) : Prop := exists s, Prim2SF x = S754_zero s.

Definition sameNumber (x y : float) : Prop := x = y \/ (isZero x /\ isZero y).

(** ** Definitions for the properties of the remaining code *)

(** An error one byte further into the buffer. *)
Definition shiftOffset {A : Type} (r : result A) : result A :=
  match r with
  | Ok a => Ok a
  | OutOfRange o => OutOfRange (o + 1)
  end.

(** The snapshot with its six motion fields read as signed 16-bit words. *)
Definition signMotion (s : DualsenseHIDState) : DualsenseHIDState :=
  {| LeftAnalogX := LeftAnalogX s; LeftAnalogY := LeftAnalogY s;
     RightAnalogX := RightAnalogX s; RightAnalogY := RightAnalogY s;
     LeftTrigger := LeftTrigger s; RightTrigger := RightTrigger s;
     Triangle := Triangle s; Circle := Circle s; Cross := Cross s;
     Square := Square s; Dpad := Dpad s; Up := Up s; Down := Down s;
     Left := Left s; Right := Right s;
     RightAnalogButton := RightAnalogButton s;
     LeftAnalogButton := LeftAnalogButton s;
     Options := Options s; Create := Create s;
     RightTriggerButton := RightTriggerButton s;
     LeftTriggerButton := LeftTriggerButton s;
     RightBumper := RightBumper s; LeftBumper := LeftBumper s;
     Playstation := Playstation s; TouchButton := TouchButton s;
     Mute := Mute s; Status := Status s;
     TouchX0 := TouchX0 s; TouchY0 := TouchY0 s;
     TouchContact0 := TouchContact0 s; TouchId0 := TouchId0 s;
     TouchX1 := TouchX1 s; TouchY1 := TouchY1 s;
     TouchContact1 := TouchContact1 s; TouchId1 := TouchId1 s;
     GyroX := twosComplement16 (GyroX s);
     GyroY := twosComplement16 (GyroY s);
     GyroZ := twosComplement16 (GyroZ s);
     AccelX := twosComplement16 (AccelX s);
     AccelY := twosComplement16 (AccelY s);
     AccelZ := twosComplement16 (AccelZ s) |}.

(** The button bytes a snapshot stands for: face buttons over the d-pad
    nibble, the eight misc buttons, and the three low bits of the last
    byte. *)
Definition buttonsByte (s : DualsenseHIDState) : Z :=
  128 * Z.b2z (Triangle s) + 64 * Z.b2z (Circle s) + 32 * Z.b2z (Cross s)
  + 16 * Z.b2z (Square s) + Dpad s.

Definition miscByte (s : DualsenseHIDState) : Z :=
  Z.b2z (LeftBumper s) + 2 * Z.b2z (RightBumper s)
  + 4 * Z.b2z (LeftTriggerButton s) + 8 * Z.b2z (RightTriggerButton s)
  + 16 * Z.b2z (Create s) + 32 * Z.b2z (Options s)
  + 64 * Z.b2z (LeftAnalogButton s) + 128 * Z.b2z (RightAnalogButton s).

Definition lastBits (s : DualsenseHIDState) : Z :=
  Z.b2z (Playstation s) + 2 * Z.b2z (TouchButton s) + 4 * Z.b2z (Mute s).

(** The first byte of a touch slot: tracking id, bit 7 set when there is
    no contact. *)
Definition touchByte (id : Z) (contact : bool) : Z :=
  id + (if contact then 0 else 128).

(** Sticks and touch coordinates in [-1, 1], triggers in [0, 1]. *)
Definition inUnitBall (x : float) : Prop :=
  (-1 <=? x)%float = true /\ (x <=? 1)%float = true.

Definition inUnitInterval (x : float) : Prop :=
  (0 <=? x)%float = true /\ (x <=? 1)%float = true.

Definition normalized (s : DualsenseHIDState) : Prop :=
  Forall inUnitBall
    [LeftAnalogX s; LeftAnalogY s; RightAnalogX s; RightAnalogY s;
     TouchX0 s; TouchY0 s; TouchX1 s; TouchY1 s]
  /\ Forall inUnitInterval [LeftTrigger s; RightTrigger s].

(** The fields the wired and the Bluetooth routine read at the same
    offsets. *)
Definition sharedFields (s : DualsenseHIDState) :=
  (LeftAnalogX s, LeftAnalogY s, RightAnalogX s, RightAnalogY s,
   (GyroX s, GyroY s, GyroZ s, AccelX s, AccelY s, AccelZ s),
   (TouchId0 s, TouchContact0 s, TouchX0 s, TouchY0 s),
   (TouchId1 s, TouchContact1 s, TouchX1 s, TouchY1 s),
   Status s).

(** What the classifier makes of a buffer length. *)
Definition recognized (buf : ByteArray) : bool :=
  (byteLength buf =? 64) || (byteLength buf =? 78).

Definition wirelessOf (buf : ByteArray) : option bool :=
  if byteLength buf =? 64 then Some false
  else if byteLength buf =? 78 then Some true
  else None.

(** The signed reading of a 12-bit field. *)
Definition signed12 (w : Z) : Z := (w + 2048) mod 4096 - 2048.

(** A touch slot of four bytes starting at [offset]: id and contact flag
    in the first byte, X in the second byte and the low nibble of the
    third, Y in the high nibble of the third and the fourth. *)
Definition touchSlotBytes (buf : ByteArray) (offset : Z) (id : Z)
    (contact : bool) (x y : float) : Prop :=
  exists b0 b1 b2 b3,
    readUint8 buf offset = Ok b0 /\ readUint8 buf (offset + 1) = Ok b1
    /\ readUint8 buf (offset + 2) = Ok b2 /\ readUint8 buf (offset + 3) = Ok b3
    /\ b0 = touchByte id contact /\ 0 <= id <= 127
    /\ x = mapAxis (JS.number (signed12 (b1 + 256 * (b2 mod 16)))) 1920
    /\ y = mapAxis (JS.number (b2 / 16 + 16 * b3)) 1080.

(** The three button bytes starting at [offset], as a snapshot holds
    them. *)
Definition buttonBytes (buf : ByteArray) (offset : Z)
    (s : DualsenseHIDState) : Prop :=
  readUint8 buf offset = Ok (buttonsByte s)
  /\ readUint8 buf (offset + 1) = Ok (miscByte s)
  /\ exists last, readUint8 buf (offset + 2) = Ok last
                  /\ last mod 8 = lastBits s.

(** What a routine makes of the d-pad nibble of the byte at [offset]. *)
Definition dpadDecoded (buf : ByteArray) (offset : Z)
    (s : DualsenseHIDState) : Prop :=
  directions s = dpadDirections (Dpad s)
  /\ exists v, readUint8 buf offset = Ok v /\ Dpad s = Z.land v 15
               /\ 0 <= Dpad s <= 15.

(** The six motion fields of a snapshot as raw words starting at
    [offset], and as byte pairs through [mapGyroAccel] starting at 16. *)
Definition motionUnsigned (buf : ByteArray) (offset : Z)
    (s : DualsenseHIDState) : Prop :=
  (motionRaw buf offset (GyroX s)
   /\ motionRaw buf (offset + 2) (GyroY s)
   /\ motionRaw buf (offset + 4) (GyroZ s)
   /\ motionRaw buf (offset + 6) (AccelX s)
   /\ motionRaw buf (offset + 8) (AccelY s)
   /\ motionRaw buf (offset + 10) (AccelZ s))
  /\ Forall (fun v => 0 <= v <= 65535)
       [GyroX s; GyroY s; GyroZ s; AccelX s; AccelY s; AccelZ s].

Definition motionReconstructed (buf : ByteArray)
    (s : DualsenseHIDState) : Prop :=
  (motionSigned buf 16 (GyroX s)
   /\ motionSigned buf 18 (GyroY s)
   /\ motionSigned buf 20 (GyroZ s)
   /\ motionSigned buf 22 (AccelX s)
   /\ motionSigned buf 24 (AccelY s)
   /\ motionSigned buf 26 (AccelZ s))
  /\ Forall (fun v => - 32768 <= v <= 32767)
       [GyroX s; GyroY s; GyroZ s; AccelX s; AccelY s; AccelZ s].

(** The value of a byte. *)
Definition byteValue (b : byte) : Z := Z.of_N (Byte.to_N b).

(** * Properties *)

(** ** Exhaustive checks *)

(** Checking a boolean property of every integer below a bound. *)
Lemma forall_below (P : Z -> bool) (n : nat) :
  forallb P (map Z.of_nat (seq 0 n)) = true ->
  forall z, 0 <= z < Z.of_nat n -> P z = true.
Proof.
  intros H z Hz. rewrite forallb_forall in H. apply H.
  apply in_map_iff. exists (Z.to_nat z). split; [lia |].
  apply in_seq. lia.
Qed.

(** ** 32-bit integer operators on small values *)

Lemma ToInt32_small (z : Z) : - 2 ^ 31 <= z < 2 ^ 31 -> JS.ToInt32 z = z.
Proof.
  intros Hz. unfold JS.ToInt32.
  rewrite Z.mod_small; lia.
Qed.

Lemma shl_small (a n : Z) :
  0 <= n < 32 -> - 2 ^ 31 <= a * 2 ^ n < 2 ^ 31 -> - 2 ^ 31 <= a < 2 ^ 31 ->
  a << n = a * 2 ^ n.
Proof.
  intros Hn Hmul Ha. unfold JS.shl.
  assert (Hmask : Z.land n 31 = n).
  { change 31 with (Z.ones 5). rewrite Z.land_ones by lia.
    apply Z.mod_small. change (2 ^ 5) with 32. lia. }
  rewrite Hmask, (ToInt32_small a) by assumption.
  rewrite Z.shiftl_mul_pow2 by lia.
  apply ToInt32_small; assumption.
Qed.

Lemma lor_disjoint_byte (h l : Z) :
  0 <= l < 256 -> Z.lor (h * 2 ^ 8) l = h * 2 ^ 8 + l.
Proof.
  intros Hl.
  rewrite <- Z.add_lor_land.
  assert (Hland : Z.land (h * 2 ^ 8) l = 0).
  { apply Z.bits_inj'. intros n Hn.
    rewrite Z.land_spec, Z.bits_0.
    destruct (Z.lt_ge_cases n 8) as [Hlt | Hge].
    - rewrite Z.mul_pow2_bits_low by lia. reflexivity.
    - destruct (Z.eq_dec l 0) as [-> | Hnz].
      + rewrite Z.bits_0. apply andb_false_r.
      + rewrite (Z.bits_above_log2 l n); [apply andb_false_r | lia |].
        apply Z.log2_lt_pow2; [lia |].
        apply Z.lt_le_trans with (2 ^ 8); [change (2 ^ 8) with 256; lia |].
        apply Z.pow_le_mono_r; lia. }
  rewrite Hland. lia.
Qed.

Lemma motion_word (low high : Z) :
  0 <= low <= 255 -> 0 <= high <= 255 ->
  (high << 8) .| low = high * 256 + low.
Proof.
  intros Hl Hh.
  rewrite shl_small
    by (change (2 ^ 8) with 256; change (2 ^ 31) with 2147483648; lia).
  unfold JS.bor.
  rewrite !ToInt32_small
    by (change (2 ^ 8) with 256; change (2 ^ 31) with 2147483648; lia).
  rewrite lor_disjoint_byte by lia. reflexivity.
Qed.

Lemma mapGyroAccel_bytes (low high : Z) :
  0 <= low <= 255 -> 0 <= high <= 255 ->
  mapGyroAccel low high =
  if high * 256 + low >? 32767
  then high * 256 + low - 65536
  else high * 256 + low.
Proof.
  intros Hl Hh. unfold mapGyroAccel. cbv zeta.
  rewrite motion_word by assumption. reflexivity.
Qed.

Lemma twosComplement16_word (w : Z) :
  0 <= w < 65536 ->
  twosComplement16 w = if w >? 32767 then w - 65536 else w.
Proof.
  intros Hw. unfold twosComplement16.
  rewrite Z.land_ones, Z.testbit_eqb by lia.
  change (2 ^ 15) with 32768.
  pose proof (Z.div_mod w 32768 ltac:(lia)) as Hdm.
  pose proof (Z.mod_pos_bound w 32768 ltac:(lia)) as Hr.
  destruct (Z.gtb_spec w 32767) as [Hgt | Hle].
  - assert (Hq : w / 32768 = 1) by lia.
    rewrite Hq in *. cbn. lia.
  - assert (Hq : w / 32768 = 0) by lia.
    rewrite Hq in *. cbn. lia.
Qed.

Lemma mapGyroAccel_range (low high : Z) :
  0 <= low <= 255 -> 0 <= high <= 255 ->
  - 32768 <= mapGyroAccel low high <= 32767.
Proof.
  intros Hl Hh. rewrite mapGyroAccel_bytes by assumption.
  destruct (Z.gtb_spec (high * 256 + low) 32767); lia.
Qed.

(** C6: for all bytes [low], [high], [mapGyroAccel low high] is exactly the
    two's-complement reading of the 16-bit word [(high << 8) | low]; it lies
    in [-32768, 32767]; and it maps (0,0) to 0, (0xFF,0x7F) to 32767 and
    (0x00,0x80) to -32768. *)
Theorem mapGyroAccel_twos_complement :
  (forall low high : Z,
      0 <= low <= 255 -> 0 <= high <= 255 ->
      mapGyroAccel low high = twosComplement16 ((high << 8) .| low)
      /\ (high << 8) .| low = high * 256 + low
      /\ - 32768 <= mapGyroAccel low high <= 32767)
  /\ mapGyroAccel 0 0 = 0
  /\ mapGyroAccel 0xFF 0x7F = 32767
  /\ mapGyroAccel 0x00 0x80 = - 32768.
Proof.
  split; [| repeat split; reflexivity].
  intros low high Hl Hh.
  split; [| split; [apply motion_word; assumption
                   | apply mapGyroAccel_range; assumption]].
  rewrite motion_word, twosComplement16_word, mapGyroAccel_bytes by lia.
  reflexivity.
Qed.

(** The sign bit set: bytes 0x34, 0x92 give 0x9234 - 0x10000. *)
Lemma mapGyroAccel_twos_complement_witness :
  mapGyroAccel 0x34 0x92 = twosComplement16 ((0x92 << 8) .| 0x34)
  /\ (0x92 << 8) .| 0x34 = 0x92 * 256 + 0x34
  /\ - 32768 <= mapGyroAccel 0x34 0x92 <= 32767.
Proof.
  apply (proj1 mapGyroAccel_twos_complement 0x34 0x92); lia.
Defined.

(** ** Order and arithmetic of numbers *)

Lemma ltb_cmp (x y : float) :
  (x <? y)%float = match cmp x y with Some Lt => true | _ => false end.
Proof. rewrite FloatAxioms.ltb_spec. reflexivity. Qed.

Lemma SFcompare_antisym (a b : spec_float) (c : comparison) :
  SFcompare a b = Some c -> SFcompare b a = Some (CompOpp c).
Proof.
  destruct a as [sa | sa | | sa ma ea], b as [sb | sb | | sb mb eb]; cbn;
    intros H; try discriminate; injection H as <-;
    try (destruct sa; reflexivity); try (destruct sb; reflexivity);
    try (destruct sa, sb; reflexivity).
  destruct sa, sb; try reflexivity;
    rewrite (Z.compare_antisym ea eb);
    destruct (ea ?= eb); cbn; try reflexivity;
    change (Pos.compare_cont Eq) with Pos.compare;
    rewrite (Pos.compare_antisym ma mb); destruct (ma ?= mb)%positive; reflexivity.
Qed.

Lemma SFcompare_Eq (a b : spec_float) :
  SFcompare a b = Some Eq ->
  a = b \/ (exists sa sb, a = S754_zero sa /\ b = S754_zero sb).
Proof.
  destruct a as [sa | sa | | sa ma ea], b as [sb | sb | | sb mb eb]; cbn;
    intros H; try discriminate;
    try (right; eexists _, _; split; reflexivity);
    left; destruct sa, sb; try discriminate; try reflexivity;
    destruct (Z.compare_spec ea eb) as [-> | |]; try discriminate;
    change (Pos.compare_cont Eq) with Pos.compare in H;
    destruct (Pos.compare_spec ma mb) as [-> | |]; try discriminate;
    reflexivity.
Qed.

Lemma SFcompare_None (a b : spec_float) :
  SFcompare a b = None -> a = S754_nan \/ b = S754_nan.
Proof.
  destruct a, b; cbn; intros H; try discriminate; auto.
Qed.

Lemma SFcompare_refl (a : spec_float) :
  a <> S754_nan -> SFcompare a a = Some Eq.
Proof.
  destruct a as [sa | sa | | sa ma ea]; cbn; intros H; try congruence.
  - destruct sa; reflexivity.
  - destruct sa; rewrite Z.compare_refl;
      change (Pos.compare_cont Eq) with Pos.compare;
      rewrite Pos.compare_refl; reflexivity.
Qed.

Lemma is_nan_spec (x : float) :
  PrimFloat.is_nan x = true <-> x = PrimFloat.nan.
Proof.
  unfold PrimFloat.is_nan. rewrite FloatAxioms.eqb_spec. unfold SFeqb.
  split.
  - intros H. apply Prim2SF_inj.
    destruct (Prim2SF x) eqn:E; try reflexivity;
      rewrite SFcompare_refl in H by discriminate; discriminate.
  - intros ->. reflexivity.
Qed.

Lemma is_nan_false (x : float) :
  PrimFloat.is_nan x = false -> Prim2SF x <> S754_nan.
Proof.
  intros H E.
  assert (Hx : x = PrimFloat.nan) by (apply Prim2SF_inj; rewrite E; reflexivity).
  apply is_nan_spec in Hx. congruence.
Qed.

Lemma cmp_total (x y : float) :
  PrimFloat.is_nan x = false -> PrimFloat.is_nan y = false ->
  exists c, cmp x y = Some c.
Proof.
  intros Hx Hy. unfold cmp.
  destruct (SFcompare (Prim2SF x) (Prim2SF y)) as [c |] eqn:E; [eauto |].
  apply SFcompare_None in E.
  destruct E as [E | E]; [apply is_nan_false in Hx | apply is_nan_false in Hy];
    contradiction.
Qed.

Lemma cmp_antisym (x y : float) (c : comparison) :
  cmp x y = Some c -> cmp y x = Some (CompOpp c).
Proof. apply SFcompare_antisym. Qed.

Lemma cmp_Eq (x y : float) : cmp x y = Some Eq -> sameNumber x y.
Proof.
  intros H. apply SFcompare_Eq in H. destruct H as [H | (sx & sy & Hx & Hy)].
  - left. apply Prim2SF_inj. exact H.
  - right. split; eexists; eassumption.
Qed.

Lemma isZero_not_nan (x : float) : isZero x -> PrimFloat.is_nan x = false.
Proof.
  intros [s Hs]. destruct (PrimFloat.is_nan x) eqn:E; [| reflexivity].
  apply is_nan_spec in E. subst x. discriminate Hs.
Qed.

Lemma sameNumber_not_nan (x y : float) :
  sameNumber x y -> PrimFloat.is_nan x = false -> PrimFloat.is_nan y = false.
Proof.
  intros [<- | [_ Hy]] Hx; [exact Hx | apply isZero_not_nan; exact Hy].
Qed.

Lemma sameNumber_cmp (x y z : float) :
  sameNumber x y -> cmp x z = cmp y z /\ cmp z x = cmp z y.
Proof.
  intros [<- | [[sx Hx] [sy Hy]]]; [split; reflexivity |].
  unfold cmp. rewrite Hx, Hy.
  destruct (Prim2SF z); split; reflexivity.
Qed.

(** The smaller of two numbers, up to the sign of zero. *)
Lemma min_same (a b : float) :
  PrimFloat.is_nan a = false -> PrimFloat.is_nan b = false ->
  sameNumber (JS.min a b) (if (a <? b)%float then a else b)
  /\ PrimFloat.is_nan (JS.min a b) = false.
Proof.
  intros Ha Hb. unfold JS.min. rewrite Ha, Hb. cbn [orb].
  rewrite !ltb_cmp.
  destruct (cmp_total a b Ha Hb) as [c Hc].
  rewrite Hc, (cmp_antisym a b c Hc).
  destruct c; cbn [CompOpp].
  - apply cmp_Eq in Hc.
    destruct (PrimFloat.get_sign a);
      (split; [first [exact Hc | left; reflexivity] | assumption]).
  - split; [left; reflexivity | assumption].
  - split; [left; reflexivity | assumption].
Qed.

(** The larger of zero and a number, up to the sign of zero. *)
Lemma max0_same (m1 m2 : float) :
  PrimFloat.is_nan m1 = false -> sameNumber m1 m2 ->
  sameNumber (JS.max 0 m1) (if (m2 <? 0)%float then 0%float else m2).
Proof.
  intros Hnan Hsame.
  pose proof (sameNumber_not_nan m1 m2 Hsame Hnan) as Hnan2.
  destruct (sameNumber_cmp m1 m2 0%float Hsame) as [Hl Hr].
  unfold JS.max. rewrite Hnan.
  change (PrimFloat.is_nan 0) with false. cbn [orb].
  change (PrimFloat.get_sign 0) with false.
  rewrite !ltb_cmp, Hl, Hr.
  destruct (cmp_total 0%float m2 eq_refl Hnan2) as [c Hc].
  rewrite Hc, (cmp_antisym _ _ c Hc).
  destruct c; cbn [CompOpp].
  - apply cmp_Eq in Hc. exact Hc.
  - exact Hsame.
  - left. reflexivity.
Qed.

Lemma clamp_same (v max : float) :
  PrimFloat.is_nan max = false ->
  sameNumber (JS.max 0 (JS.min max v)) (clamp v 0 max).
Proof.
  intros Hmax. unfold clamp. cbv zeta.
  destruct (PrimFloat.is_nan v) eqn:Hv.
  - apply is_nan_spec in Hv. subst v. left.
    unfold JS.min. rewrite Hmax. change (PrimFloat.is_nan nan) with true.
    cbn [orb].
    assert (Hlt : (max <? nan)%float = false).
    { rewrite ltb_cmp. unfold cmp. change (Prim2SF nan) with S754_nan.
      destruct (Prim2SF max); reflexivity. }
    rewrite Hlt. reflexivity.
  - destruct (min_same max v Hmax Hv) as [Hsame Hnan].
    apply max0_same; assumption.
Qed.

(** Scaling a zero of either sign and subtracting one. *)
Lemma scale_zero (k a b : float) :
  isZero a -> isZero b -> (k * a - 1 = k * b - 1)%float.
Proof.
  intros [sa Ha] [sb Hb]. apply Prim2SF_inj.
  rewrite !FloatAxioms.sub_spec, !FloatAxioms.mul_spec, Ha, Hb.
  destruct (Prim2SF k) as [sk | sk | | sk mk ek]; destruct sa, sb;
    try destruct sk; reflexivity.
Qed.

Lemma scale_same (k a b : float) :
  sameNumber a b -> (k * a - 1 = k * b - 1)%float.
Proof.
  intros [<- | [Ha Hb]]; [reflexivity | apply scale_zero; assumption].
Qed.

Lemma scale_nan (a : float) : (nan * a - 1 = nan)%float.
Proof.
  apply Prim2SF_inj.
  rewrite !FloatAxioms.sub_spec, !FloatAxioms.mul_spec.
  reflexivity.
Qed.

Lemma mapAxis_clamp (v max : float) :
  mapAxis v max = ((2 / max) * clamp v 0 max - 1)%float.
Proof.
  unfold mapAxis.
  destruct (PrimFloat.is_nan max) eqn:Hmax.
  - apply is_nan_spec in Hmax. subst max.
    change (2 / nan)%float with nan. rewrite !scale_nan. reflexivity.
  - apply scale_same, clamp_same, Hmax.
Qed.

Lemma leb_cmp (x y : float) :
  (x <=? y)%float
  = match cmp x y with Some (Lt | Eq) => true | _ => false end.
Proof. rewrite FloatAxioms.leb_spec. reflexivity. Qed.

Lemma SFcompare_above_nonneg (m v : spec_float) :
  SFleb (S754_zero false) m = true ->
  SFltb m v = true ->
  SFltb v (S754_zero false) = false.
Proof.
  unfold SFleb, SFltb.
  destruct m as [sm | sm | | sm mm em], v as [sv | sv | | sv mv ev]; cbn;
    try discriminate; try reflexivity;
    try destruct sm; try destruct sv; cbn; try discriminate; reflexivity.
Qed.

Lemma nonneg_not_below_zero (max : float) :
  (0 <=? max)%float = true -> (max <? 0)%float = false.
Proof.
  rewrite leb_cmp, ltb_cmp. intros H.
  destruct (cmp 0 max) as [c |] eqn:Hc; [| discriminate].
  rewrite (cmp_antisym _ _ c Hc). destruct c; [reflexivity | reflexivity | discriminate].
Qed.

Lemma above_max_not_below_zero (v max : float) :
  (0 <=? max)%float = true -> (max <? v)%float = true -> (v <? 0)%float = false.
Proof.
  rewrite FloatAxioms.leb_spec, !FloatAxioms.ltb_spec.
  change (Prim2SF 0) with (S754_zero false).
  apply SFcompare_above_nonneg.
Qed.

Lemma clamp_cases (v max : float) :
  (0 <=? max)%float = true -> clamp v 0 max = clampCases v 0 max.
Proof.
  intros Hmax. unfold clamp, clampCases. cbv zeta.
  destruct (max <? v)%float eqn:E.
  - rewrite (nonneg_not_below_zero max Hmax).
    rewrite (above_max_not_below_zero v max Hmax E). reflexivity.
  - reflexivity.
Qed.

Lemma ltb_irrefl (x : float) : (x <? x)%float = false.
Proof.
  rewrite ltb_cmp.
  destruct (cmp x x) as [c |] eqn:Hc; [| reflexivity].
  pose proof (cmp_antisym _ _ _ Hc) as Hc'. rewrite Hc in Hc'.
  destruct c; [reflexivity | discriminate | reflexivity].
Qed.

Lemma mapAxis_outside (v max : float) :
  (0 <=? max)%float = true ->
  ((v <? 0)%float = true -> mapAxis v max = mapAxis 0 max)
  /\ ((max <? v)%float = true -> mapAxis v max = mapAxis max max).
Proof.
  intros Hmax. rewrite !mapAxis_clamp, !clamp_cases by assumption.
  unfold clampCases.
  rewrite (nonneg_not_below_zero max Hmax), (ltb_irrefl max), (ltb_irrefl 0).
  split; intros Hv.
  - rewrite Hv. reflexivity.
  - rewrite (above_max_not_below_zero v max Hmax Hv), Hv. reflexivity.
Qed.

(** ** Axis mapping *)

Lemma mapAxis255_range (v : Z) :
  0 <= v <= 255 ->
  (-1 <=? mapAxis255 (JS.number v))%float = true
  /\ (mapAxis255 (JS.number v) <=? 1)%float = true.
Proof.
  intros Hv.
  pose proof (forall_below
    (fun v => (-1 <=? mapAxis255 (JS.number v))%float
              && (mapAxis255 (JS.number v) <=? 1)%float)
    256 ltac:(vm_compute; reflexivity) v ltac:(lia)) as H.
  cbv beta in H. apply andb_true_iff in H. exact H.
Qed.

(** C7: [mapAxis v max] is [(2 / max) * clamp v 0 max - 1] for all numbers
    [v] and [max]; for [max >= 0] the clamp is the three-way one, so values
    below 0 map like 0 and values above [max] like [max]; with the default
    [max = 255] every integer in [0, 255] maps into [-1, 1], 0 maps to -1,
    255 to 1, 127 and 128 to within 1/127 of 0, -5 like 0 and 9999 like
    255. *)
Theorem mapAxis_clamped_linear_map :
  (forall v max : float,
      mapAxis v max = ((2 / max) * clamp v 0 max - 1)%float)
  /\ (forall v max : float,
      (0 <=? max)%float = true ->
      clamp v 0 max = clampCases v 0 max
      /\ ((v <? 0)%float = true -> mapAxis v max = mapAxis 0 max)
      /\ ((max <? v)%float = true -> mapAxis v max = mapAxis max max))
  /\ (forall v : Z,
      0 <= v <= 255 ->
      (-1 <=? mapAxis255 (JS.number v))%float = true
      /\ (mapAxis255 (JS.number v) <=? 1)%float = true)
  /\ mapAxis255 (JS.number 0) = (-1)%float
  /\ mapAxis255 (JS.number 255) = 1%float
  /\ (abs (mapAxis255 (JS.number 127)) <=? 1 / 127)%float = true
  /\ (abs (mapAxis255 (JS.number 128)) <=? 1 / 127)%float = true
  /\ mapAxis255 (JS.number (-5)) = mapAxis255 (JS.number 0)
  /\ mapAxis255 (JS.number 9999) = mapAxis255 (JS.number 255).
Proof.
  split; [exact mapAxis_clamp |].
  split.
  { intros v max Hmax.
    split; [apply clamp_cases; exact Hmax | apply mapAxis_outside; exact Hmax]. }
  split; [exact mapAxis255_range |].
  repeat split; reflexivity.
Qed.

Lemma mapAxis_clamped_linear_map_witness :
  (0 <=? 255)%float = true
  /\ (255 <? 300)%float = true
  /\ clamp 300 0 255 = clampCases 300 0 255
  /\ mapAxis 300 255 = mapAxis 255 255
  /\ 0 <= 200 <= 255
  /\ (mapAxis255 (JS.number 200) <=? 1)%float = true.
Proof.
  destruct (proj1 (proj2 mapAxis_clamped_linear_map) 300%float 255%float eq_refl)
    as (Hcases & _ & Habove).
  destruct (proj1 (proj2 (proj2 mapAxis_clamped_linear_map)) 200 ltac:(lia))
    as [_ Hle].
  split; [reflexivity |]. split; [reflexivity |].
  split; [exact Hcases |]. split; [exact (Habove eq_refl) |].
  split; [lia | exact Hle].
Defined.

(** ** The byte accessor *)

Lemma byteAt_Some (buf : ByteArray) (offset v : Z) :
  byteAt buf offset = Some v ->
  0 <= offset < byteLength buf /\ 0 <= v <= 255.
Proof.
  unfold byteAt, byteLength. intros H.
  destruct (Z.ltb_spec offset 0) as [Hneg | Hpos]; [discriminate |].
  destruct (nth_error buf (Z.to_nat offset)) as [b |] eqn:Hnth; [| discriminate].
  injection H as <-.
  assert (Hlen : (Z.to_nat offset < List.length buf)%nat).
  { apply nth_error_Some. rewrite Hnth. discriminate. }
  pose proof (Byte.to_N_bounded b) as Hb.
  lia.
Qed.

Lemma byteAt_None (buf : ByteArray) (offset : Z) :
  byteLength buf <= offset -> byteAt buf offset = None.
Proof.
  unfold byteAt, byteLength. intros H.
  destruct (Z.ltb_spec offset 0) as [Hneg | Hpos]; [reflexivity |].
  assert (Hnth : nth_error buf (Z.to_nat offset) = None)
    by (apply nth_error_None; lia).
  rewrite Hnth. reflexivity.
Qed.

Lemma byteAt_in_bounds (buf : ByteArray) (offset : Z) :
  0 <= offset < byteLength buf -> exists v, byteAt buf offset = Some v.
Proof.
  unfold byteAt, byteLength. intros H.
  destruct (Z.ltb_spec offset 0) as [Hneg | Hpos]; [lia |].
  destruct (nth_error buf (Z.to_nat offset)) as [b |] eqn:Hnth.
  - eexists. reflexivity.
  - apply nth_error_None in Hnth. lia.
Qed.

Lemma readUint8_Ok (buf : ByteArray) (offset v : Z) :
  readUint8 buf offset = Ok v ->
  0 <= offset < byteLength buf /\ 0 <= v <= 255.
Proof.
  unfold readUint8. intros H.
  destruct (byteAt buf offset) as [w |] eqn:Hb; [| discriminate].
  injection H as <-. eapply byteAt_Some; eassumption.
Qed.

Lemma readUint8_past_end (buf : ByteArray) (offset : Z) :
  byteLength buf <= offset -> readUint8 buf offset = OutOfRange offset.
Proof.
  intros H. unfold readUint8. rewrite byteAt_None by assumption. reflexivity.
Qed.

Lemma readUint8_in_bounds (buf : ByteArray) (offset : Z) :
  0 <= offset < byteLength buf -> exists v, readUint8 buf offset = Ok v.
Proof.
  intros H. destruct (byteAt_in_bounds buf offset H) as [v Hv].
  exists v. unfold readUint8. rewrite Hv. reflexivity.
Qed.

Lemma readUint16LE_Ok (buf : ByteArray) (offset v : Z) :
  readUint16LE buf offset = Ok v ->
  exists lo hi,
    readUint8 buf offset = Ok lo /\ readUint8 buf (offset + 1) = Ok hi
    /\ v = lo + 256 * hi
    /\ 0 <= offset /\ offset + 1 < byteLength buf
    /\ 0 <= lo <= 255 /\ 0 <= hi <= 255.
Proof.
  unfold readUint16LE, readUint8. intros H.
  destruct (byteAt buf offset) as [lo |] eqn:Hlo; [| discriminate].
  destruct (byteAt buf (offset + 1)) as [hi |] eqn:Hhi; [| discriminate].
  injection H as <-.
  apply byteAt_Some in Hlo. apply byteAt_Some in Hhi.
  exists lo, hi. repeat split; lia.
Qed.

Lemma readUint16LE_range (buf : ByteArray) (offset v : Z) :
  readUint16LE buf offset = Ok v -> 0 <= v <= 65535.
Proof.
  intros H. apply readUint16LE_Ok in H.
  destruct H as (lo & hi & _ & _ & -> & _ & _ & Hlo & Hhi). lia.
Qed.

Lemma readUint16LE_in_bounds (buf : ByteArray) (offset : Z) :
  0 <= offset -> offset + 1 < byteLength buf ->
  exists v, readUint16LE buf offset = Ok v.
Proof.
  intros Hlo Hhi. unfold readUint16LE.
  destruct (byteAt_in_bounds buf offset ltac:(lia)) as [lo ->].
  destruct (byteAt_in_bounds buf (offset + 1) ltac:(lia)) as [hi ->].
  eexists. reflexivity.
Qed.

(** ** Connection classifier *)

Lemma autodetect_recognized (this : HIDProvider) (buf : ByteArray) :
  byteLength buf = 64 \/ byteLength buf = 78 ->
  autodetectConnectionType this buf
  = ({| device := device this; wireless := Some (byteLength buf =? 78);
        buffer := buffer this; unknownDevice := unknownDevice this;
        oldFirmware := oldFirmware this |}, []).
Proof.
  intros [H | H]; unfold autodetectConnectionType; rewrite H; reflexivity.
Qed.

Lemma autodetect_unrecognized (this : HIDProvider) (buf : ByteArray) :
  byteLength buf <> 64 -> byteLength buf <> 78 ->
  autodetectConnectionType this buf
  = ({| device := device this; wireless := None; buffer := buffer this;
        unknownDevice := true; oldFirmware := oldFirmware this |},
     if unknownDevice this then [] else [cannotAutodetect (byteLength buf)]).
Proof.
  intros H64 H78. unfold autodetectConnectionType.
  change (DUAL_SENSE_USB_INPUT_REPORT_0x01_SIZE + 1) with 64.
  change (DUAL_SENSE_BT_INPUT_REPORT_0x31_SIZE + 1) with 78.
  destruct (Z.eqb_spec (byteLength buf) 64) as [E | _]; [contradiction |].
  destruct (Z.eqb_spec (byteLength buf) 78) as [E | _]; [contradiction |].
  destruct (unknownDevice this); reflexivity.
Qed.

(** The flag never drops inside the classifier, and while it is up no error
    is reported, whatever the lengths. *)
Lemma autodetect_flag_sticky (this : HIDProvider) (buf : ByteArray) :
  unknownDevice this = true ->
  unknownDevice (fst (autodetectConnectionType this buf)) = true
  /\ snd (autodetectConnectionType this buf) = [].
Proof.
  intros Hflag. unfold autodetectConnectionType.
  destruct (byteLength buf =? DUAL_SENSE_USB_INPUT_REPORT_0x01_SIZE + 1);
    [cbn; auto |].
  destruct (byteLength buf =? DUAL_SENSE_BT_INPUT_REPORT_0x31_SIZE + 1);
    [cbn; auto |].
  cbn [fst snd unknownDevice]. rewrite Hflag. auto.
Qed.

Lemma autodetectAll_flag_sticky (bufs : list ByteArray) :
  forall this : HIDProvider,
    unknownDevice this = true ->
    unknownDevice (fst (autodetectAll this bufs)) = true
    /\ snd (autodetectAll this bufs) = [].
Proof.
  induction bufs as [| buf rest IH]; intros this Hflag.
  - cbn. auto.
  - cbn [autodetectAll].
    destruct (autodetect_flag_sticky this buf Hflag) as [Hflag1 Herrs1].
    destruct (autodetectConnectionType this buf) as [this1 errs1].
    cbn [fst snd] in Hflag1, Herrs1. subst errs1.
    destruct (IH this1 Hflag1) as [Hflag2 Herrs2].
    destruct (autodetectAll this1 rest) as [this2 errs2].
    cbn [fst snd] in *. subst errs2. auto.
Qed.

(** C4: from a clear flag, a buffer of unrecognized length followed by any
    number of buffers of that same length hands exactly one error to
    [onError], and the flag is set after the first buffer. *)
Theorem unrecognized_length_reported_once (this : HIDProvider)
    (buf : ByteArray) (rest : list ByteArray) :
  unknownDevice this = false ->
  byteLength buf <> 64 -> byteLength buf <> 78 ->
  Forall (fun b => byteLength b = byteLength buf) rest ->
  unknownDevice (fst (autodetectConnectionType this buf)) = true
  /\ snd (autodetectConnectionType this buf)
     = [cannotAutodetect (byteLength buf)]
  /\ snd (autodetectAll this (buf :: rest))
     = [cannotAutodetect (byteLength buf)]
  /\ List.length (snd (autodetectAll this (buf :: rest))) = 1%nat
  /\ unknownDevice (fst (autodetectAll this (buf :: rest))) = true.
Proof.
  intros Hclear H64 H78 _.
  cbn [autodetectAll].
  rewrite (autodetect_unrecognized this buf H64 H78), Hclear.
  cbn [fst snd unknownDevice].
  match goal with
  | |- context [autodetectAll ?t rest] =>
      destruct (autodetectAll_flag_sticky rest t eq_refl) as [Hflag Herrs];
      destruct (autodetectAll t rest) as [this2 errs2]
  end.
  cbn [fst snd] in *. subst errs2. auto.
Qed.

Lemma unrecognized_length_reported_once_witness :
  snd (autodetectAll idleProvider (repeat (repeat x00 5) 4))
  = [cannotAutodetect 5]
  /\ unknownDevice (fst (autodetectConnectionType idleProvider (repeat x00 5)))
     = true.
Proof.
  destruct (unrecognized_length_reported_once idleProvider (repeat x00 5)
              (repeat (repeat x00 5) 3))
    as (Hflag & _ & Herrs & _).
  - reflexivity.
  - vm_compute. discriminate.
  - vm_compute. discriminate.
  - repeat constructor.
  - split; [exact Herrs | exact Hflag].
Defined.

(** C3 (as amended): with the flag set, a buffer of recognized length (64
    or 78 bytes) sets the wireless state and reports nothing, but leaves
    the flag set, so later unrecognized lengths stay silent; [reset] clears
    the flag, and the next unrecognized length is reported again. *)
Theorem unknown_flag_cleared_only_by_reset (this : HIDProvider)
    (buf : ByteArray) :
  unknownDevice this = true ->
  byteLength buf = 64 \/ byteLength buf = 78 ->
  let this1 := fst (autodetectConnectionType this buf) in
  wireless this1 = Some (byteLength buf =? 78)
  /\ snd (autodetectConnectionType this buf) = []
  /\ unknownDevice this1 = true
  /\ (forall later, snd (autodetectAll this1 later) = [])
  /\ unknownDevice (reset this1) = false
  /\ (forall later,
         byteLength later <> 64 -> byteLength later <> 78 ->
         snd (autodetectConnectionType (reset this1) later)
         = [cannotAutodetect (byteLength later)]).
Proof.
  intros Hflag Hlen this1. subst this1.
  rewrite (autodetect_recognized this buf Hlen).
  cbn [fst snd wireless unknownDevice].
  split; [reflexivity |]. split; [reflexivity |]. split; [exact Hflag |].
  split.
  - intros later. apply autodetectAll_flag_sticky. exact Hflag.
  - split; [reflexivity |].
    intros later H64 H78.
    rewrite (autodetect_unrecognized _ later H64 H78). reflexivity.
Qed.

Lemma unknown_flag_cleared_only_by_reset_witness :
  let this1 := fst (autodetectConnectionType flaggedProvider sampleUsbReport) in
  wireless this1 = Some false
  /\ unknownDevice this1 = true
  /\ snd (autodetectAll this1 [repeat x00 5]) = []
  /\ snd (autodetectConnectionType (reset this1) (repeat x00 5))
     = [cannotAutodetect 5].
Proof.
  destruct (unknown_flag_cleared_only_by_reset flaggedProvider sampleUsbReport
              eq_refl (or_introl eq_refl))
    as (Hw & _ & Hflag & Hsilent & _ & Hagain).
  split; [exact Hw |]. split; [exact Hflag |].
  split; [apply Hsilent |].
  apply (Hagain (repeat x00 5)); vm_compute; discriminate.
Defined.

(** C3, as stated, fails: the flag is still set after a 64-byte report, and
    the unrecognized 5-byte buffer that follows is not reported. *)
Lemma recognized_length_keeps_unknown_flag :
  unknownDevice flaggedProvider = true
  /\ byteLength sampleUsbReport = 64
  /\ unknownDevice (fst (autodetectConnectionType flaggedProvider sampleUsbReport))
     <> false
  /\ snd (autodetectAll flaggedProvider [sampleUsbReport; repeat x00 5]) = [].
Proof.
  repeat split; try reflexivity. vm_compute. discriminate.
Qed.

(** C2: a 10-byte buffer falls into the default branch of
    [autodetectConnectionType]: the wireless state becomes undefined, the
    unknown-device flag is set and, unless it was set already, the
    unexpected-size error is reported. *)
Theorem autodetect_rejects_reduced_wireless (this : HIDProvider)
    (buf : ByteArray) :
  byteLength buf = DUAL_SENSE_BT_INPUT_REPORT_0x01_SIZE + 1 ->
  wireless (fst (autodetectConnectionType this buf)) = None
  /\ unknownDevice (fst (autodetectConnectionType this buf)) = true
  /\ snd (autodetectConnectionType this buf)
     = if unknownDevice this then [] else [cannotAutodetect 10].
Proof.
  intros Hlen. change (DUAL_SENSE_BT_INPUT_REPORT_0x01_SIZE + 1) with 10 in Hlen.
  rewrite (autodetect_unrecognized this buf) by lia.
  rewrite Hlen. cbn [fst snd wireless unknownDevice]. auto.
Qed.

Lemma autodetect_rejects_reduced_wireless_witness :
  wireless (fst (autodetectConnectionType idleProvider (repeat x00 10))) = None
  /\ unknownDevice (fst (autodetectConnectionType idleProvider (repeat x00 10)))
     = true
  /\ snd (autodetectConnectionType idleProvider (repeat x00 10))
     = [ {| message :=
              "Cannot autodetect connection type, unexpected buffer size: 10" |} ].
Proof.
  apply (autodetect_rejects_reduced_wireless idleProvider (repeat x00 10)).
  reflexivity.
Defined.

(** ** Inverting a successful decode *)

Ltac invert_reads H :=
  repeat match type of H with
    | context [match readUint8 ?b ?o with _ => _ end] =>
        let v := fresh "v" in
        let E := fresh "Hread" in
        destruct (readUint8 b o) as [v |] eqn:E; [| discriminate H];
        cbv beta iota in H
    | context [match readUint16LE ?b ?o with _ => _ end] =>
        let v := fresh "w" in
        let E := fresh "Hread" in
        destruct (readUint16LE b o) as [v |] eqn:E; [| discriminate H];
        cbv beta iota in H
    end.

Ltac invert_decode H :=
  cbv beta delta [bind] in H; invert_reads H;
  injection H as <-; cbv beta iota delta [Dpad Up Down Left Right
    LeftTrigger RightTrigger LeftBumper RightBumper LeftTriggerButton
    RightTriggerButton Create Options LeftAnalogButton RightAnalogButton
    Playstation TouchButton Mute GyroX GyroY GyroZ AccelX AccelY AccelZ
    TouchX0 TouchY0 TouchX1 TouchY1].

(** C1: on every 10-byte buffer [processBluetoothInputReport01] addresses
    offset 16, past the end of the buffer, and fails there. *)
Theorem processBluetoothInputReport01_short_buffer (buf : ByteArray) :
  byteLength buf = 10 ->
  processBluetoothInputReport01 buf = OutOfRange 16.
Proof.
  intros Hlen. unfold processBluetoothInputReport01.
  destruct (readUint8_in_bounds buf 7 ltac:(lia)) as [v7 H7].
  destruct (readUint8_in_bounds buf 8 ltac:(lia)) as [v8 H8].
  destruct (readUint8_in_bounds buf 9 ltac:(lia)) as [v9 H9].
  destruct (readUint8_in_bounds buf 1 ltac:(lia)) as [v1 H1].
  destruct (readUint8_in_bounds buf 2 ltac:(lia)) as [v2 H2].
  destruct (readUint8_in_bounds buf 3 ltac:(lia)) as [v3 H3].
  destruct (readUint8_in_bounds buf 4 ltac:(lia)) as [v4 H4].
  rewrite H7, H8, H9, H1, H2, H3, H4.
  rewrite (readUint8_past_end buf 16) by lia.
  reflexivity.
Qed.

Lemma processBluetoothInputReport01_short_buffer_witness :
  byteLength (repeat x00 10) = 10
  /\ processBluetoothInputReport01 (repeat x00 10) = OutOfRange 16.
Proof.
  split; [reflexivity |].
  apply (processBluetoothInputReport01_short_buffer (repeat x00 10)).
  reflexivity.
Defined.

Ltac perform_reads :=
  repeat match goal with
    | |- context [match readUint8 ?b ?o with _ => _ end] =>
        let v := fresh "v" in
        let E := fresh "Hread" in
        destruct (readUint8_in_bounds b o ltac:(lia)) as [v E];
        rewrite E; cbv beta iota
    | |- context [match readUint16LE ?b ?o with _ => _ end] =>
        let v := fresh "w" in
        let E := fresh "Hread" in
        destruct (readUint16LE_in_bounds b o ltac:(lia) ltac:(lia)) as [v E];
        rewrite E; cbv beta iota
    end.

(** The current-firmware routines decode exactly the buffers that reach
    the status byte at offset 54; the legacy routine those that reach
    offset 55 minus the legacy offset. *)
Lemma processUsbInputReport01_succeeds (buf : ByteArray) :
  55 <= byteLength buf <-> exists s, processUsbInputReport01 buf = Ok s.
Proof.
  split.
  - intros Hlen. unfold processUsbInputReport01.
    cbv beta delta [bind]. perform_reads. eexists. reflexivity.
  - intros [s H]. unfold processUsbInputReport01 in H.
    cbv beta delta [bind] in H. invert_reads H.
    match goal with
    | Hs : readUint8 buf 54 = Ok _ |- _ => apply readUint8_Ok in Hs; lia
    end.
Qed.

Lemma processBluetoothInputReport01_succeeds (buf : ByteArray) :
  55 <= byteLength buf <-> exists s, processBluetoothInputReport01 buf = Ok s.
Proof.
  split.
  - intros Hlen. unfold processBluetoothInputReport01.
    cbv beta delta [bind]. perform_reads. eexists. reflexivity.
  - intros [s H]. unfold processBluetoothInputReport01 in H.
    cbv beta delta [bind] in H. invert_reads H.
    match goal with
    | Hs : readUint8 buf 54 = Ok _ |- _ => apply readUint8_Ok in Hs; lia
    end.
Qed.

Lemma processOldInputReport_succeeds (this : HIDProvider) (buf : ByteArray) :
  56 - legacyOffset this <= byteLength buf
  <-> exists s, processOldInputReport this buf = Ok s.
Proof.
  assert (Hoff : legacyOffset this = 0 \/ legacyOffset this = 1)
    by (unfold legacyOffset; destruct (wireless this) as [[|] |]; auto).
  unfold processOldInputReport. fold (legacyOffset this). cbv zeta.
  split.
  - intros Hlen. cbv beta delta [bind]. perform_reads. eexists. reflexivity.
  - intros [s H]. cbv beta delta [bind] in H. invert_reads H.
    match goal with
    | Hs : readUint8 buf (55 - _) = Ok _ |- _ => apply readUint8_Ok in Hs; lia
    end.
Qed.

(** ** D-pad decomposition *)

Lemma band_byte (v mask : Z) :
  0 <= v <= 255 -> 0 <= mask <= 255 -> v .& mask = Z.land v mask.
Proof.
  intros Hv Hm. unfold JS.band.
  rewrite !ToInt32_small by (change (2 ^ 31) with 2147483648; lia).
  reflexivity.
Qed.

Lemma gtb_ltb (a b : Z) : (a >? b) = (b <? a).
Proof. apply Z.gtb_ltb. Qed.

Lemma decoded_directions (dpad : Z) :
  ((dpad <? 2) || (dpad =? 7), (dpad >? 2) && (dpad <? 6),
   (dpad >? 4) && (dpad <? 8), (dpad >? 0) && (dpad <? 4))
  = dpadDirections dpad.
Proof.
  unfold dpadDirections, dpadUp, dpadDown, dpadLeft, dpadRight.
  rewrite !gtb_ltb. reflexivity.
Qed.

Lemma nibble_range (v : Z) : 0 <= v <= 255 -> 0 <= Z.land v 15 <= 15.
Proof.
  intros Hv. change (Z.land v 15) with (Z.land v (Z.ones 4)).
  rewrite Z.land_ones by lia.
  pose proof (Z.mod_pos_bound v (2 ^ 4) ltac:(lia)) as H.
  change (2 ^ 4) with 16 in *. lia.
Qed.

Lemma usb_dpad (buf : ByteArray) (s : DualsenseHIDState) :
  processUsbInputReport01 buf = Ok s -> dpadDecoded buf 8 s.
Proof.
  intros H. unfold processUsbInputReport01 in H. invert_decode H.
  unfold dpadDecoded, directions; cbn [Up Down Left Right Dpad].
  split; [apply decoded_directions |].
  destruct (readUint8_Ok _ _ _ Hread) as [_ Hv].
  exists v. rewrite band_byte by lia.
  split; [exact Hread | split; [reflexivity | apply nibble_range; lia]].
Qed.

Lemma bluetooth01_dpad (buf : ByteArray) (s : DualsenseHIDState) :
  processBluetoothInputReport01 buf = Ok s -> dpadDecoded buf 7 s.
Proof.
  intros H. unfold processBluetoothInputReport01 in H. invert_decode H.
  unfold dpadDecoded, directions; cbn [Up Down Left Right Dpad].
  split; [apply decoded_directions |].
  destruct (readUint8_Ok _ _ _ Hread) as [_ Hv].
  exists v. rewrite band_byte by lia.
  split; [exact Hread | split; [reflexivity | apply nibble_range; lia]].
Qed.

Lemma legacy_dpad (this : HIDProvider) (buf : ByteArray)
    (s : DualsenseHIDState) :
  processOldInputReport this buf = Ok s ->
  dpadDecoded buf (9 - legacyOffset this) s.
Proof.
  intros H. unfold processOldInputReport in H.
  fold (legacyOffset this) in H. cbv zeta in H. invert_decode H.
  unfold dpadDecoded, directions; cbn [Up Down Left Right Dpad].
  split; [apply decoded_directions |].
  destruct (readUint8_Ok _ _ _ Hread) as [_ Hv].
  exists v. rewrite band_byte by lia.
  split; [exact Hread | split; [reflexivity | apply nibble_range; lia]].
Qed.

(** C8: each of the three decode routines decodes every buffer long enough
    for it (55 bytes; 56 for the legacy routine on a wireless link), and in
    the snapshot the d-pad value is the low nibble of the buttons byte and
    Up, Down, Left, Right are [value < 2 or value = 7], [2 < value < 6],
    [4 < value < 8], [0 < value < 4]; the same holds of any snapshot a
    routine returns; the table over the raw values 0..8 follows, with 8
    giving four times false and 2 being neither Up nor Down. *)
Theorem dpad_decomposition :
  (forall buf,
      55 <= byteLength buf ->
      exists s, processUsbInputReport01 buf = Ok s /\ dpadDecoded buf 8 s)
  /\ (forall buf,
      55 <= byteLength buf ->
      exists s,
        processBluetoothInputReport01 buf = Ok s /\ dpadDecoded buf 7 s)
  /\ (forall this buf,
      56 - legacyOffset this <= byteLength buf ->
      exists s,
        processOldInputReport this buf = Ok s
        /\ dpadDecoded buf (9 - legacyOffset this) s)
  /\ (forall buf s,
      processUsbInputReport01 buf = Ok s ->
      directions s = dpadDirections (Dpad s)
      /\ exists v, readUint8 buf 8 = Ok v /\ Dpad s = Z.land v 15
                   /\ 0 <= Dpad s <= 15)
  /\ (forall buf s,
      processBluetoothInputReport01 buf = Ok s ->
      directions s = dpadDirections (Dpad s)
      /\ exists v, readUint8 buf 7 = Ok v /\ Dpad s = Z.land v 15
                   /\ 0 <= Dpad s <= 15)
  /\ (forall this buf s,
      processOldInputReport this buf = Ok s ->
      directions s = dpadDirections (Dpad s)
      /\ exists v, readUint8 buf (9 - legacyOffset this) = Ok v
                   /\ Dpad s = Z.land v 15 /\ 0 <= Dpad s <= 15)
  /\ map dpadDirections [0; 1; 2; 3; 4; 5; 6; 7; 8]
     = [ (true, false, false, false);
         (true, false, false, true);
         (false, false, false, true);
         (false, true, false, true);
         (false, true, false, false);
         (false, true, true, false);
         (false, false, true, false);
         (true, false, true, false);
         (false, false, false, false) ].
Proof.
  split; [| split; [| split; [| split; [| split; [| split]]]]].
  - intros buf Hlen.
    apply processUsbInputReport01_succeeds in Hlen. destruct Hlen as [s Hs].
    exists s. split; [exact Hs | apply usb_dpad; exact Hs].
  - intros buf Hlen.
    apply processBluetoothInputReport01_succeeds in Hlen.
    destruct Hlen as [s Hs].
    exists s. split; [exact Hs | apply bluetooth01_dpad; exact Hs].
  - intros this buf Hlen.
    apply processOldInputReport_succeeds in Hlen. destruct Hlen as [s Hs].
    exists s. split; [exact Hs | apply legacy_dpad; exact Hs].
  - intros buf s Hs. exact (usb_dpad buf s Hs).
  - intros buf s Hs. exact (bluetooth01_dpad buf s Hs).
  - intros this buf s Hs. exact (legacy_dpad this buf s Hs).
  - reflexivity.
Qed.

(** The three routines on sample reports: d-pad 7 for the wired and the
    legacy routine (nibble of byte 8), the neutral 8 for the Bluetooth
    routine (nibble of byte 7). *)
Lemma dpad_decomposition_witness :
  (exists s,
      processUsbInputReport01 sampleUsbReport = Ok s
      /\ Dpad s = 7 /\ directions s = (true, false, true, false))
  /\ (exists s,
      processBluetoothInputReport01 sampleBluetoothReport = Ok s
      /\ Dpad s = 8 /\ directions s = (false, false, false, false))
  /\ (exists s,
      processOldInputReport idleProvider sampleUsbReport = Ok s
      /\ Dpad s = 7 /\ directions s = (true, false, true, false)).
Proof.
  destruct dpad_decomposition as (Husb & Hbt & Hold & _).
  split; [| split].
  - destruct (Husb sampleUsbReport ltac:(vm_compute; discriminate))
      as (s & Hs & Hdir & v & Hv & Hd & _).
    exists s. split; [exact Hs |].
    vm_compute in Hv. injection Hv as <-.
    rewrite Hdir, Hd. split; reflexivity.
  - destruct (Hbt sampleBluetoothReport ltac:(vm_compute; discriminate))
      as (s & Hs & Hdir & v & Hv & Hd & _).
    exists s. split; [exact Hs |].
    vm_compute in Hv. injection Hv as <-.
    rewrite Hdir, Hd. split; reflexivity.
  - destruct (Hold idleProvider sampleUsbReport
                ltac:(vm_compute; discriminate))
      as (s & Hs & Hdir & v & Hv & Hd & _).
    exists s. split; [exact Hs |].
    vm_compute in Hv. injection Hv as <-.
    rewrite Hdir, Hd. split; reflexivity.
Defined.

(** ** Motion fields *)

Lemma motionSigned_range (buf : ByteArray) (offset value : Z) :
  motionSigned buf offset value -> - 32768 <= value <= 32767.
Proof.
  intros (lo & hi & Hlo & Hhi & ->).
  apply readUint8_Ok in Hlo. apply readUint8_Ok in Hhi.
  apply mapGyroAccel_range; lia.
Qed.

Lemma legacy_motion (this : HIDProvider) (buf : ByteArray)
    (s : DualsenseHIDState) :
  processOldInputReport this buf = Ok s ->
  let offset := legacyOffset this in
  (motionRaw buf (17 - offset) (GyroX s)
   /\ motionRaw buf (19 - offset) (GyroY s)
   /\ motionRaw buf (21 - offset) (GyroZ s)
   /\ motionRaw buf (23 - offset) (AccelX s)
   /\ motionRaw buf (25 - offset) (AccelY s)
   /\ motionRaw buf (27 - offset) (AccelZ s))
  /\ Forall (fun v => 0 <= v <= 65535)
       [GyroX s; GyroY s; GyroZ s; AccelX s; AccelY s; AccelZ s].
Proof.
  intros H offset. subst offset.
  unfold processOldInputReport in H.
  fold (legacyOffset this) in H. cbv zeta in H. invert_decode H.
  cbn [GyroX GyroY GyroZ AccelX AccelY AccelZ]. unfold motionRaw.
  split; [repeat split; assumption |].
  repeat constructor; eapply readUint16LE_range; eassumption.
Qed.

Lemma legacy_motion_unsigned (this : HIDProvider) (buf : ByteArray)
    (s : DualsenseHIDState) :
  processOldInputReport this buf = Ok s ->
  motionUnsigned buf (17 - legacyOffset this) s.
Proof.
  intros H. destruct (legacy_motion this buf s H) as [Hraw Hrange].
  cbv zeta in Hraw. unfold motionUnsigned.
  replace (17 - legacyOffset this + 2) with (19 - legacyOffset this) by lia.
  replace (17 - legacyOffset this + 4) with (21 - legacyOffset this) by lia.
  replace (17 - legacyOffset this + 6) with (23 - legacyOffset this) by lia.
  replace (17 - legacyOffset this + 8) with (25 - legacyOffset this) by lia.
  replace (17 - legacyOffset this + 10) with (27 - legacyOffset this) by lia.
  split; assumption.
Qed.

Lemma motion_reconstructed_range (buf : ByteArray) (s : DualsenseHIDState) :
  motionSigned buf 16 (GyroX s)
  /\ motionSigned buf 18 (GyroY s)
  /\ motionSigned buf 20 (GyroZ s)
  /\ motionSigned buf 22 (AccelX s)
  /\ motionSigned buf 24 (AccelY s)
  /\ motionSigned buf 26 (AccelZ s) ->
  motionReconstructed buf s.
Proof.
  intros Hfields. split; [exact Hfields |].
  destruct Hfields as (H1 & H2 & H3 & H4 & H5 & H6).
  repeat constructor; eapply motionSigned_range; eassumption.
Qed.

Lemma usb_motion (buf : ByteArray) (s : DualsenseHIDState) :
  processUsbInputReport01 buf = Ok s -> motionReconstructed buf s.
Proof.
  intros H. apply motion_reconstructed_range.
  unfold processUsbInputReport01 in H. invert_decode H.
  cbn [GyroX GyroY GyroZ AccelX AccelY AccelZ].
  repeat split; eexists _, _; repeat split; eassumption.
Qed.

Lemma bluetooth01_motion (buf : ByteArray) (s : DualsenseHIDState) :
  processBluetoothInputReport01 buf = Ok s -> motionReconstructed buf s.
Proof.
  intros H. apply motion_reconstructed_range.
  unfold processBluetoothInputReport01 in H. invert_decode H.
  cbn [GyroX GyroY GyroZ AccelX AccelY AccelZ].
  repeat split; eexists _, _; repeat split; eassumption.
Qed.

(** C9: [processOldInputReport] decodes every buffer long enough for it and
    yields each of GyroX, GyroY, GyroZ, AccelX, AccelY, AccelZ as the raw
    little-endian 16-bit word at offsets 17, 19, 21, 23, 25, 27 (minus the
    legacy offset), a value in [0, 65535] with no sign adjustment;
    [processUsbInputReport01] and [processBluetoothInputReport01] decode
    every buffer of 55 bytes or more and yield them as [mapGyroAccel] of
    the byte pairs at offsets 16..27, a value in [-32768, 32767]; the same
    holds of any snapshot a routine returns. *)
Theorem legacy_motion_is_unsigned :
  (forall this buf,
      56 - legacyOffset this <= byteLength buf ->
      exists s,
        processOldInputReport this buf = Ok s
        /\ motionUnsigned buf (17 - legacyOffset this) s)
  /\ (forall buf,
      55 <= byteLength buf ->
      exists s,
        processUsbInputReport01 buf = Ok s /\ motionReconstructed buf s)
  /\ (forall buf,
      55 <= byteLength buf ->
      exists s,
        processBluetoothInputReport01 buf = Ok s
        /\ motionReconstructed buf s)
  /\ (forall this buf s,
      processOldInputReport this buf = Ok s ->
      let offset := legacyOffset this in
      (motionRaw buf (17 - offset) (GyroX s)
       /\ motionRaw buf (19 - offset) (GyroY s)
       /\ motionRaw buf (21 - offset) (GyroZ s)
       /\ motionRaw buf (23 - offset) (AccelX s)
       /\ motionRaw buf (25 - offset) (AccelY s)
       /\ motionRaw buf (27 - offset) (AccelZ s))
      /\ Forall (fun v => 0 <= v <= 65535)
           [GyroX s; GyroY s; GyroZ s; AccelX s; AccelY s; AccelZ s])
  /\ (forall decode buf s,
      decode = processUsbInputReport01
      \/ decode = processBluetoothInputReport01 ->
      decode buf = Ok s ->
      (motionSigned buf 16 (GyroX s)
       /\ motionSigned buf 18 (GyroY s)
       /\ motionSigned buf 20 (GyroZ s)
       /\ motionSigned buf 22 (AccelX s)
       /\ motionSigned buf 24 (AccelY s)
       /\ motionSigned buf 26 (AccelZ s))
      /\ Forall (fun v => - 32768 <= v <= 32767)
           [GyroX s; GyroY s; GyroZ s; AccelX s; AccelY s; AccelZ s]).
Proof.
  split; [| split; [| split; [| split]]].
  - intros this buf Hlen.
    apply processOldInputReport_succeeds in Hlen. destruct Hlen as [s Hs].
    exists s. split; [exact Hs | apply legacy_motion_unsigned; exact Hs].
  - intros buf Hlen.
    apply processUsbInputReport01_succeeds in Hlen. destruct Hlen as [s Hs].
    exists s. split; [exact Hs | apply usb_motion; exact Hs].
  - intros buf Hlen.
    apply processBluetoothInputReport01_succeeds in Hlen.
    destruct Hlen as [s Hs].
    exists s. split; [exact Hs | apply bluetooth01_motion; exact Hs].
  - intros this buf s Hs. exact (legacy_motion this buf s Hs).
  - intros decode buf s [-> | ->] Hs.
    + exact (usb_motion buf s Hs).
    + exact (bluetooth01_motion buf s Hs).
Qed.

(** The same bytes 0x34, 0x92 at offsets 16, 17 decoded by the three
    routines: 37428 for the legacy routine, -28108 for the wired and the
    Bluetooth one. *)
Lemma legacy_motion_is_unsigned_witness :
  (exists s,
      processOldInputReport idleProvider sampleUsbReport = Ok s
      /\ GyroX s = 37428 /\ 0 <= GyroX s <= 65535)
  /\ (exists s,
      processUsbInputReport01 sampleUsbReport = Ok s
      /\ GyroX s = - 28108 /\ - 32768 <= GyroX s <= 32767)
  /\ (exists s,
      processBluetoothInputReport01 sampleUsbReport = Ok s
      /\ GyroX s = - 28108 /\ - 32768 <= GyroX s <= 32767).
Proof.
  destruct legacy_motion_is_unsigned as (Hold & Husb & Hbt & _).
  split; [| split].
  - destruct (Hold idleProvider sampleUsbReport
                ltac:(vm_compute; discriminate))
      as (s & Hs & (Hraw & _) & Hrange).
    exists s. split; [exact Hs |].
    split; [| exact (Forall_inv Hrange)].
    unfold motionRaw in Hraw.
    assert (Hword : readUint16LE sampleUsbReport
                      (17 - legacyOffset idleProvider) = Ok 37428)
      by (vm_compute; reflexivity).
    rewrite Hword in Hraw. injection Hraw as <-. reflexivity.
  - destruct (Husb sampleUsbReport ltac:(vm_compute; discriminate))
      as (s & Hs & (Hsigned & _) & Hrange).
    exists s. split; [exact Hs |].
    split; [| exact (Forall_inv Hrange)].
    destruct Hsigned as (lo & hi & Hlo & Hhi & ->).
    vm_compute in Hlo, Hhi. injection Hlo as <-. injection Hhi as <-.
    reflexivity.
  - destruct (Hbt sampleUsbReport ltac:(vm_compute; discriminate))
      as (s & Hs & (Hsigned & _) & Hrange).
    exists s. split; [exact Hs |].
    split; [| exact (Forall_inv Hrange)].
    destruct Hsigned as (lo & hi & Hlo & Hhi & ->).
    vm_compute in Hlo, Hhi. injection Hlo as <-. injection Hhi as <-.
    reflexivity.
Defined.

(** ** Touch coordinates *)

Lemma touchX_sign_extends (raw : Z) :
  0 <= raw <= 65535 -> touchX raw = (raw + 2048) mod 4096 - 2048.
Proof.
  intros Hraw. unfold touchX, JS.sar, JS.shl.
  change (Z.land 20 31) with 20.
  rewrite (ToInt32_small raw) by (change (2 ^ 31) with 2147483648; lia).
  rewrite Z.shiftl_mul_pow2, Z.shiftr_div_pow2 by lia.
  assert (Hwrap : JS.ToInt32 (raw * 2 ^ 20)
                  = 2 ^ 20 * ((raw + 2048) mod 4096 - 2048)).
  { unfold JS.ToInt32.
    replace (raw * 2 ^ 20 + 2 ^ 31) with (2 ^ 20 * (raw + 2048)) by
      (change (2 ^ 31) with (2 ^ 20 * 2048); ring).
    change (2 ^ 32) with (2 ^ 20 * 4096).
    rewrite Z.mul_mod_distr_l by lia.
    change (2 ^ 31) with (2 ^ 20 * 2048). ring. }
  pose proof (Z.mod_pos_bound (raw + 2048) 4096 ltac:(lia)) as Hmod.
  rewrite Hwrap, ToInt32_small
    by (change (2 ^ 31) with 2147483648; change (2 ^ 20) with 1048576; lia).
  rewrite Z.mul_comm. apply Z.div_mul. lia.
Qed.

Lemma touchY_high_bits (raw : Z) :
  0 <= raw <= 65535 -> touchY raw = raw / 16.
Proof.
  intros Hraw. unfold touchY, JS.sar.
  change (Z.land 4 31) with 4.
  rewrite ToInt32_small by (change (2 ^ 31) with 2147483648; lia).
  rewrite Z.shiftr_div_pow2 by lia. reflexivity.
Qed.

Lemma touch_ranges (raw : Z) :
  0 <= raw <= 65535 ->
  - 2048 <= touchX raw <= 2047 /\ 0 <= touchY raw <= 4095.
Proof.
  intros Hraw.
  rewrite touchX_sign_extends, touchY_high_bits by assumption.
  pose proof (Z.mod_pos_bound (raw + 2048) 4096 ltac:(lia)).
  pose proof (Z.div_mod raw 16 ltac:(lia)).
  pose proof (Z.mod_pos_bound raw 16 ltac:(lia)).
  lia.
Qed.

(** What the clamp inside [mapAxis] does to the integers a touch slot can
    hold: the mapped value is that of the coordinate clamped to the
    resolution, and lies in [-1, 1]. *)
Lemma mapAxis_touchX_clamps (x : Z) :
  - 2048 <= x <= 2047 ->
  mapAxis (JS.number x) 1920 = mapAxis (JS.number (clampZ x 0 1920)) 1920
  /\ (-1 <=? mapAxis (JS.number x) 1920)%float = true
  /\ (mapAxis (JS.number x) 1920 <=? 1)%float = true.
Proof.
  intros Hx.
  pose proof (forall_below
    (fun i =>
       PrimFloat.Leibniz.eqb (mapAxis (JS.number (i - 2048)) 1920)
         (mapAxis (JS.number (clampZ (i - 2048) 0 1920)) 1920)
       && ((-1 <=? mapAxis (JS.number (i - 2048)) 1920)%float
           && (mapAxis (JS.number (i - 2048)) 1920 <=? 1)%float))
    4096 ltac:(vm_compute; reflexivity) (x + 2048) ltac:(lia)) as H.
  cbv beta in H. replace (x + 2048 - 2048) with x in H by lia.
  apply andb_true_iff in H. destruct H as [Heq Hrange].
  apply andb_true_iff in Hrange.
  apply FloatAxioms.Leibniz.eqb_spec in Heq. tauto.
Qed.

Lemma mapAxis_touchY_clamps (y : Z) :
  0 <= y <= 4095 ->
  mapAxis (JS.number y) 1080 = mapAxis (JS.number (clampZ y 0 1080)) 1080
  /\ (-1 <=? mapAxis (JS.number y) 1080)%float = true
  /\ (mapAxis (JS.number y) 1080 <=? 1)%float = true.
Proof.
  intros Hy.
  pose proof (forall_below
    (fun i =>
       PrimFloat.Leibniz.eqb (mapAxis (JS.number i) 1080)
         (mapAxis (JS.number (clampZ i 0 1080)) 1080)
       && ((-1 <=? mapAxis (JS.number i) 1080)%float
           && (mapAxis (JS.number i) 1080 <=? 1)%float))
    4096 ltac:(vm_compute; reflexivity) y ltac:(lia)) as H.
  cbv beta in H.
  apply andb_true_iff in H. destruct H as [Heq Hrange].
  apply andb_true_iff in Hrange.
  apply FloatAxioms.Leibniz.eqb_spec in Heq. tauto.
Qed.

Ltac solve_touchSlot :=
  eexists _, _; repeat split; eassumption.

(** C5 (as amended): the integers handed to [mapAxis] for a touch slot are
    the sign-extended low 12 bits of the 16-bit read for X, in
    [-2048, 2047], and the read shifted right by 4 for Y, in [0, 4095];
    [mapAxis] clamps them to [0, 1920] and [0, 1080] before scaling, so the
    mapped coordinates lie in [-1, 1].  All three routines decode both
    slots this way. *)
Theorem touch_coordinates_twelve_bit :
  (forall raw,
      0 <= raw <= 65535 ->
      touchX raw = (raw + 2048) mod 4096 - 2048
      /\ touchY raw = raw / 16
      /\ - 2048 <= touchX raw <= 2047
      /\ 0 <= touchY raw <= 4095
      /\ mapAxis (JS.number (touchX raw)) 1920
         = mapAxis (JS.number (clampZ (touchX raw) 0 1920)) 1920
      /\ mapAxis (JS.number (touchY raw)) 1080
         = mapAxis (JS.number (clampZ (touchY raw) 0 1080)) 1080
      /\ (-1 <=? mapAxis (JS.number (touchX raw)) 1920)%float = true
      /\ (mapAxis (JS.number (touchX raw)) 1920 <=? 1)%float = true
      /\ (-1 <=? mapAxis (JS.number (touchY raw)) 1080)%float = true
      /\ (mapAxis (JS.number (touchY raw)) 1080 <=? 1)%float = true)
  /\ (forall decode buf s,
      decode = processUsbInputReport01
      \/ decode = processBluetoothInputReport01 ->
      decode buf = Ok s ->
      touchSlot buf 34 (TouchX0 s) (TouchY0 s)
      /\ touchSlot buf 38 (TouchX1 s) (TouchY1 s))
  /\ (forall this buf s,
      processOldInputReport this buf = Ok s ->
      touchSlot buf (35 - legacyOffset this) (TouchX0 s) (TouchY0 s)
      /\ touchSlot buf (39 - legacyOffset this) (TouchX1 s) (TouchY1 s)).
Proof.
  split; [| split].
  - intros raw Hraw.
    destruct (touch_ranges raw Hraw) as [Hx Hy].
    destruct (mapAxis_touchX_clamps _ Hx) as (Hcx & Hlx & Hux).
    destruct (mapAxis_touchY_clamps _ Hy) as (Hcy & Hly & Huy).
    pose proof (touchX_sign_extends raw Hraw).
    pose proof (touchY_high_bits raw Hraw).
    tauto.
  - intros decode buf s [-> | ->] H.
    + unfold processUsbInputReport01 in H. invert_decode H.
      cbn [TouchX0 TouchY0 TouchX1 TouchY1]. unfold touchSlot.
      split; solve_touchSlot.
    + unfold processBluetoothInputReport01 in H. invert_decode H.
      cbn [TouchX0 TouchY0 TouchX1 TouchY1]. unfold touchSlot.
      split; solve_touchSlot.
  - intros this buf s H. unfold processOldInputReport in H.
    fold (legacyOffset this) in H. cbv zeta in H. invert_decode H.
    cbn [TouchX0 TouchY0 TouchX1 TouchY1]. unfold touchSlot.
    replace (35 - legacyOffset this + 1) with (36 - legacyOffset this) by lia.
    replace (39 - legacyOffset this + 1) with (40 - legacyOffset this) by lia.
    split; solve_touchSlot.
Qed.

Lemma touch_coordinates_twelve_bit_witness :
  0 <= 0xf12c <= 65535
  /\ touchX 0xf12c = 0x12c
  /\ touchY 0xf12c = 0xf12
  /\ mapAxis (JS.number (touchY 0xf12c)) 1080
     = mapAxis (JS.number (clampZ (touchY 0xf12c) 0 1080)) 1080.
Proof.
  destruct (proj1 touch_coordinates_twelve_bit 0xf12c ltac:(lia))
    as (Hx & Hy & _ & _ & _ & Hclamp & _).
  split; [lia |].
  split; [rewrite Hx; reflexivity |].
  split; [rewrite Hy; reflexivity |].
  exact Hclamp.
Defined.

(** C5, as stated, fails: with bytes 34..36 all 0xFF the X handed to
    [mapAxis] is -1 and the Y is 4095, outside [0, 1920] and [0, 1080]. *)
Lemma touch_coordinates_exceed_resolution :
  exists s rawX rawY,
    processUsbInputReport01 saturatedTouchReport = Ok s
    /\ readUint16LE saturatedTouchReport 34 = Ok rawX
    /\ readUint16LE saturatedTouchReport 35 = Ok rawY
    /\ TouchX0 s = mapAxis (JS.number (touchX rawX)) 1920
    /\ TouchY0 s = mapAxis (JS.number (touchY rawY)) 1080
    /\ touchX rawX = - 1
    /\ touchY rawY = 4095
    /\ ~ (0 <= touchX rawX <= 1920)
    /\ ~ (0 <= touchY rawY <= 1080).
Proof.
  eexists _, _, _.
  split; [vm_compute; reflexivity |].
  split; [vm_compute; reflexivity |].
  split; [vm_compute; reflexivity |].
  split; [vm_compute; reflexivity |].
  split; [vm_compute; reflexivity |].
  split; [reflexivity |].
  split; [reflexivity |].
  split; vm_compute; intros [H1 H2]; congruence.
Qed.

(** ** Buttons and triggers of the reduced wireless routine *)

Lemma mapTrigger_positive (v : Z) :
  1 <= v <= 255 -> (0 <? mapTrigger (JS.number v))%float = true.
Proof.
  intros Hv.
  pose proof (forall_below
                (fun v => (v =? 0) || (0 <? mapTrigger (JS.number v))%float)
                256 ltac:(vm_compute; reflexivity) v ltac:(lia)) as H.
  cbv beta in H.
  destruct (Z.eqb_spec v 0) as [-> | _]; [lia | exact H].
Qed.

Lemma pressed_bit_nonzero (v mask : Z) :
  0 <= v <= 255 -> 0 <= mask <= 255 -> (v .& mask >? 0) = true -> 1 <= v <= 255.
Proof.
  intros Hv Hm Hbit. rewrite band_byte in Hbit by assumption.
  destruct (Z.eq_dec v 0) as [-> | Hnz]; [| lia].
  rewrite Z.land_0_l in Hbit. discriminate.
Qed.

(** C10: in [processBluetoothInputReport01] byte 8 supplies both the
    misc-button mask and LeftTrigger, byte 9 both the last-button mask and
    RightTrigger; so a pressed misc button forces LeftTrigger > 0 and a
    pressed Playstation, TouchButton or Mute forces RightTrigger > 0. *)
Theorem bluetooth01_buttons_overlap_triggers (buf : ByteArray)
    (s : DualsenseHIDState) :
  processBluetoothInputReport01 buf = Ok s ->
  exists misc last,
    readUint8 buf 8 = Ok misc /\ readUint8 buf 9 = Ok last
    /\ LeftTrigger s = mapTrigger (JS.number misc)
    /\ RightTrigger s = mapTrigger (JS.number last)
    /\ [LeftBumper s; RightBumper s; LeftTriggerButton s; RightTriggerButton s;
        Create s; Options s; LeftAnalogButton s; RightAnalogButton s]
       = map (fun mask => misc .& mask >? 0) [1; 2; 4; 8; 16; 32; 64; 128]
    /\ [Playstation s; TouchButton s; Mute s]
       = map (fun mask => last .& mask >? 0) [1; 2; 4]
    /\ (LeftBumper s || RightBumper s || LeftTriggerButton s
        || RightTriggerButton s || Create s || Options s
        || LeftAnalogButton s || RightAnalogButton s = true ->
        (0 <? LeftTrigger s)%float = true)
    /\ (Playstation s || TouchButton s || Mute s = true ->
        (0 <? RightTrigger s)%float = true).
Proof.
  intros H. unfold processBluetoothInputReport01 in H. invert_decode H.
  cbn [LeftTrigger RightTrigger LeftBumper RightBumper LeftTriggerButton
       RightTriggerButton Create Options LeftAnalogButton RightAnalogButton
       Playstation TouchButton Mute].
  destruct (readUint8_Ok _ _ _ Hread0) as [_ Hmisc].
  destruct (readUint8_Ok _ _ _ Hread1) as [_ Hlast].
  exists v0, v1.
  repeat (split; [reflexivity |]).
  split; intros Hany; apply mapTrigger_positive;
    repeat (apply orb_true_iff in Hany; destruct Hany as [Hany | Hany]);
    (eapply pressed_bit_nonzero; [| | exact Hany]; lia).
Qed.

(** Options, LeftBumper and Mute are pressed in the sample report. *)
Lemma bluetooth01_buttons_overlap_triggers_witness :
  exists s,
    processBluetoothInputReport01 sampleBluetoothReport = Ok s
    /\ (0 <? LeftTrigger s)%float = true
    /\ (0 <? RightTrigger s)%float = true.
Proof.
  eexists. split; [vm_compute; reflexivity |].
  destruct (bluetooth01_buttons_overlap_triggers sampleBluetoothReport _
              ltac:(vm_compute; reflexivity))
    as (misc & last & _ & _ & _ & _ & _ & _ & Hleft & Hright).
  split; [apply Hleft | apply Hright]; reflexivity.
Defined.

(** * Further properties of the value mappers *)

Lemma ltb_not_nan (a b : float) :
  (a <? b)%float = true ->
  PrimFloat.is_nan a = false /\ PrimFloat.is_nan b = false.
Proof.
  rewrite ltb_cmp. unfold cmp. intros H.
  split.
  - destruct (PrimFloat.is_nan a) eqn:E; [| reflexivity].
    apply is_nan_spec in E. subst a. discriminate H.
  - destruct (PrimFloat.is_nan b) eqn:E; [| reflexivity].
    apply is_nan_spec in E. subst b.
    change (Prim2SF nan) with S754_nan in H.
    destruct (Prim2SF a); discriminate H.
Qed.

Lemma ltb_asym (a b : float) :
  (a <? b)%float = true -> (b <? a)%float = false.
Proof.
  rewrite !ltb_cmp. intros H.
  destruct (cmp a b) as [c |] eqn:Hc; [| discriminate].
  rewrite (cmp_antisym _ _ _ Hc). destruct c; try discriminate. reflexivity.
Qed.

Lemma SFltb_through_zero (v m : spec_float) :
  SFltb v (S754_zero false) = true ->
  SFltb (S754_zero false) m = true ->
  SFltb v m = true.
Proof.
  unfold SFltb.
  destruct v as [sv | sv | | sv mv ev], m as [sm | sm | | sm mm em]; cbn;
    try discriminate;
    try destruct sv; try destruct sm; cbn; try discriminate; reflexivity.
Qed.

Lemma ltb_through_zero (v max : float) :
  (v <? 0)%float = true -> (0 <? max)%float = true -> (v <? max)%float = true.
Proof.
  rewrite !FloatAxioms.ltb_spec.
  change (Prim2SF 0) with (S754_zero false).
  apply SFltb_through_zero.
Qed.

Lemma leb_of_ltb (a b : float) :
  (a <? b)%float = true -> (a <=? b)%float = true.
Proof.
  rewrite ltb_cmp, leb_cmp.
  destruct (cmp a b) as [[ | | ] |]; intros H; try discriminate; reflexivity.
Qed.

(** The clamp of the mappers below zero and above a positive maximum. *)
Lemma js_clamp_below (v max : float) :
  (0 <? max)%float = true -> (v <? 0)%float = true ->
  JS.max 0 (JS.min max v) = 0%float.
Proof.
  intros Hmax Hv.
  destruct (ltb_not_nan _ _ Hmax) as [_ Hnmax].
  destruct (ltb_not_nan _ _ Hv) as [Hnv _].
  assert (Hmin : JS.min max v = v).
  { unfold JS.min. rewrite Hnmax, Hnv. cbn [orb].
    rewrite (ltb_asym v max (ltb_through_zero v max Hv Hmax)).
    rewrite (ltb_through_zero v max Hv Hmax). reflexivity. }
  rewrite Hmin. unfold JS.max. rewrite Hnv.
  change (PrimFloat.is_nan 0) with false. cbn [orb].
  rewrite (ltb_asym v 0 Hv), Hv. reflexivity.
Qed.

Lemma js_clamp_above (v max : float) :
  (0 <? max)%float = true -> (max <? v)%float = true ->
  JS.max 0 (JS.min max v) = max.
Proof.
  intros Hmax Hv.
  destruct (ltb_not_nan _ _ Hv) as [Hnmax Hnv].
  assert (Hmin : JS.min max v = max).
  { unfold JS.min. rewrite Hnmax, Hnv. cbn [orb]. rewrite Hv. reflexivity. }
  rewrite Hmin. unfold JS.max. rewrite Hnmax.
  change (PrimFloat.is_nan 0) with false. cbn [orb].
  rewrite Hmax. reflexivity.
Qed.

Lemma js_clamp_nan (max : float) :
  JS.max 0 (JS.min max nan) = nan.
Proof.
  unfold JS.min. change (PrimFloat.is_nan nan) with true.
  rewrite orb_true_r. reflexivity.
Qed.

(** Checking a boolean property of every pair of integers below a bound. *)
Lemma forall_below2 (P : Z -> Z -> bool) (n : nat) :
  forallb (fun a => forallb (P a) (map Z.of_nat (seq 0 n)))
    (map Z.of_nat (seq 0 n)) = true ->
  forall a b, 0 <= a < Z.of_nat n -> 0 <= b < Z.of_nat n -> P a b = true.
Proof.
  intros H a b Ha Hb.
  pose proof (forall_below _ n H a Ha) as Hrow. cbv beta in Hrow.
  exact (forall_below _ n Hrow b Hb).
Qed.

Lemma mapTrigger_increasing (a b : Z) :
  0 <= a -> a < b -> b <= 255 ->
  (mapTrigger (JS.number a) <? mapTrigger (JS.number b))%float = true.
Proof.
  intros Ha Hab Hb.
  pose proof (forall_below2
    (fun a b => implb (a <? b)
                  (mapTrigger (JS.number a) <? mapTrigger (JS.number b))%float)
    256 ltac:(vm_compute; reflexivity) a b ltac:(lia) ltac:(lia)) as H.
  cbv beta in H.
  destruct (Z.ltb_spec a b) as [_ | Hge]; [exact H | lia].
Qed.

Lemma mapAxis255_increasing (a b : Z) :
  0 <= a -> a < b -> b <= 255 ->
  (mapAxis255 (JS.number a) <? mapAxis255 (JS.number b))%float = true.
Proof.
  intros Ha Hab Hb.
  pose proof (forall_below2
    (fun a b => implb (a <? b)
                  (mapAxis255 (JS.number a) <? mapAxis255 (JS.number b))%float)
    256 ltac:(vm_compute; reflexivity) a b ltac:(lia) ltac:(lia)) as H.
  cbv beta in H.
  destruct (Z.ltb_spec a b) as [_ | Hge]; [exact H | lia].
Qed.

(** X1: [mapTrigger] sends the bytes 0..255 strictly increasingly into
    [0, 1], with 0 at 0 and 1 at 255; every number below 0 maps to 0, every
    number above 255 to 1, and NaN to NaN. *)
Theorem mapTrigger_unit_interval :
  (forall v : Z,
      0 <= v <= 255 ->
      (0 <=? mapTrigger (JS.number v))%float = true
      /\ (mapTrigger (JS.number v) <=? 1)%float = true)
  /\ (forall a b : Z,
      0 <= a -> a < b -> b <= 255 ->
      (mapTrigger (JS.number a) <? mapTrigger (JS.number b))%float = true)
  /\ mapTrigger (JS.number 0) = 0%float
  /\ mapTrigger (JS.number 255) = 1%float
  /\ (forall v : float, (v <? 0)%float = true -> mapTrigger v = 0%float)
  /\ (forall v : float, (255 <? v)%float = true -> mapTrigger v = 1%float)
  /\ mapTrigger nan = nan.
Proof.
  split.
  { intros v Hv.
    pose proof (forall_below
      (fun v => (0 <=? mapTrigger (JS.number v))%float
                && (mapTrigger (JS.number v) <=? 1)%float)
      256 ltac:(vm_compute; reflexivity) v ltac:(lia)) as H.
    cbv beta in H. apply andb_true_iff in H. exact H. }
  split.
  { exact mapTrigger_increasing. }
  split; [reflexivity |]. split; [reflexivity |].
  split; [| split].
  - intros v Hv. unfold mapTrigger.
    rewrite (js_clamp_below v 255 eq_refl Hv). reflexivity.
  - intros v Hv. unfold mapTrigger.
    rewrite (js_clamp_above v 255 eq_refl Hv). reflexivity.
  - reflexivity.
Qed.

Lemma mapTrigger_unit_interval_witness :
  (mapTrigger (JS.number 17) <? mapTrigger (JS.number 18))%float = true
  /\ mapTrigger (JS.number (-3)) = 0%float
  /\ mapTrigger 300.5 = 1%float.
Proof.
  destruct mapTrigger_unit_interval as (_ & Hmono & _ & _ & Hlow & Hhigh & _).
  split; [apply (Hmono 17 18); lia |].
  split; [apply (Hlow (JS.number (-3))) | apply (Hhigh 300.5%float)];
    reflexivity.
Defined.

(** X2: with the default maximum, [mapAxis] is strictly increasing over the
    bytes 0..255 and no byte maps to zero: a stick byte never decodes to an
    exact centre. *)
Theorem mapAxis255_resolution :
  (forall a b : Z,
      0 <= a -> a < b -> b <= 255 ->
      (mapAxis255 (JS.number a) <? mapAxis255 (JS.number b))%float = true)
  /\ (forall v : Z,
      0 <= v <= 255 -> (mapAxis255 (JS.number v) =? 0)%float = false)
  /\ (forall v : Z,
      0 <= v <= 127 -> (mapAxis255 (JS.number v) <? 0)%float = true)
  /\ (forall v : Z,
      128 <= v <= 255 -> (0 <? mapAxis255 (JS.number v))%float = true).
Proof.
  split.
  { exact mapAxis255_increasing. }
  split; [| split]; intros v Hv.
  - pose proof (forall_below
      (fun v => negb (mapAxis255 (JS.number v) =? 0)%float)
      256 ltac:(vm_compute; reflexivity) v ltac:(lia)) as H.
    cbv beta in H. apply negb_true_iff in H. exact H.
  - exact (forall_below
      (fun v => (mapAxis255 (JS.number v) <? 0)%float)
      128 ltac:(vm_compute; reflexivity) v ltac:(lia)).
  - pose proof (forall_below
      (fun v => (0 <? mapAxis255 (JS.number (v + 128)))%float)
      128 ltac:(vm_compute; reflexivity) (v - 128) ltac:(lia)) as H.
    cbv beta in H. replace (v - 128 + 128) with v in H by lia. exact H.
Qed.

Lemma mapAxis255_resolution_witness :
  (mapAxis255 (JS.number 127) <? mapAxis255 (JS.number 128))%float = true
  /\ (mapAxis255 (JS.number 127) =? 0)%float = false
  /\ (mapAxis255 (JS.number 127) <? 0)%float = true
  /\ (0 <? mapAxis255 (JS.number 128))%float = true.
Proof.
  destruct mapAxis255_resolution as (Hmono & Hnz & Hneg & Hpos).
  split; [apply (Hmono 127 128); lia |].
  split; [apply (Hnz 127); lia |].
  split; [apply (Hneg 127); lia | apply (Hpos 128); lia].
Defined.

(** X3: [mapGyroAccel] is a bijection between byte pairs and the signed
    16-bit integers: the pair is recovered from the value, and every value
    in [-32768, 32767] is the image of its two's-complement bytes. *)
Theorem mapGyroAccel_round_trip :
  (forall low high : Z,
      0 <= low <= 255 -> 0 <= high <= 255 ->
      mapGyroAccel low high mod 256 = low
      /\ (mapGyroAccel low high / 256) mod 256 = high)
  /\ (forall v : Z,
      - 32768 <= v <= 32767 ->
      mapGyroAccel (v mod 256) ((v / 256) mod 256) = v).
Proof.
  split.
  - intros low high Hl Hh. rewrite mapGyroAccel_bytes by assumption.
    destruct (Z.gtb_spec (high * 256 + low) 32767);
      split; Z.div_mod_to_equations; lia.
  - intros v Hv.
    pose proof (Z.mod_pos_bound v 256 ltac:(lia)).
    pose proof (Z.mod_pos_bound (v / 256) 256 ltac:(lia)).
    rewrite mapGyroAccel_bytes by lia.
    destruct (Z.gtb_spec ((v / 256) mod 256 * 256 + v mod 256) 32767);
      Z.div_mod_to_equations; lia.
Qed.

Lemma mapGyroAccel_round_trip_witness :
  mapGyroAccel 0x34 0x92 mod 256 = 0x34
  /\ (mapGyroAccel 0x34 0x92 / 256) mod 256 = 0x92
  /\ mapGyroAccel (-28108 mod 256) ((-28108 / 256) mod 256) = -28108.
Proof.
  destruct mapGyroAccel_round_trip as [Hbytes Hvalue].
  destruct (Hbytes 0x34 0x92 ltac:(lia) ltac:(lia)) as [Hlow Hhigh].
  split; [exact Hlow |]. split; [exact Hhigh |].
  apply (Hvalue (-28108)). lia.
Defined.

(** * Further properties of the report decoders *)

(** ** Which buffers decode, and where the others fail *)

Lemma readUint8_OutOfRange (buf : ByteArray) (offset o : Z) :
  readUint8 buf offset = OutOfRange o ->
  o = offset /\ (offset < 0 \/ byteLength buf <= offset).
Proof.
  unfold readUint8. intros H.
  destruct (byteAt buf offset) as [v |] eqn:Hb; [discriminate |].
  injection H as <-. split; [reflexivity |].
  destruct (Z.ltb_spec offset 0) as [Hneg | Hpos]; [left; exact Hneg |].
  destruct (Z.ltb_spec offset (byteLength buf)) as [Hin | Hout];
    [| right; exact Hout].
  destruct (byteAt_in_bounds buf offset ltac:(lia)) as [v Hv]. congruence.
Qed.

Lemma readUint16LE_OutOfRange (buf : ByteArray) (offset o : Z) :
  readUint16LE buf offset = OutOfRange o ->
  o = offset /\ (offset < 0 \/ byteLength buf <= offset + 1).
Proof.
  intros H.
  assert (Ho : o = offset).
  { unfold readUint16LE in H.
    destruct (byteAt buf offset), (byteAt buf (offset + 1));
      try discriminate; injection H as <-; reflexivity. }
  split; [exact Ho |].
  destruct (Z.ltb_spec offset 0) as [Hneg | Hpos]; [left; exact Hneg |].
  destruct (Z.ltb_spec (offset + 1) (byteLength buf)) as [Hin | Hout];
    [| right; exact Hout].
  destruct (readUint16LE_in_bounds buf offset Hpos Hin) as [v Hv]. congruence.
Qed.

Lemma readUint16LE_bounds (buf : ByteArray) (offset v : Z) :
  readUint16LE buf offset = Ok v ->
  0 <= offset /\ offset + 1 < byteLength buf.
Proof.
  intros H. apply readUint16LE_Ok in H.
  destruct H as (lo & hi & _ & _ & _ & Hlo & Hhi & _). split; assumption.
Qed.

(** Walks through the reads of a failed decode [H]: a read that succeeds
    leaves the bounds of its offset in the context, the one that fails
    leaves the goal to [lia]. *)
Ltac failed_reads H :=
  repeat match type of H with
    | context [match readUint8 ?b ?o with _ => _ end] =>
        let v := fresh "v" in
        let E := fresh "Hread" in
        destruct (readUint8 b o) as [v | ?] eqn:E; cbv beta iota in H;
        [apply readUint8_Ok in E
        | apply readUint8_OutOfRange in E; injection H as <-; lia]
    | context [match readUint16LE ?b ?o with _ => _ end] =>
        let v := fresh "w" in
        let E := fresh "Hread" in
        destruct (readUint16LE b o) as [v | ?] eqn:E; cbv beta iota in H;
        [apply readUint16LE_bounds in E
        | apply readUint16LE_OutOfRange in E; injection H as <-; lia]
    end;
  try discriminate H.

(** X4: [processUsbInputReport01] decodes exactly the buffers of at least
    55 bytes; on any shorter buffer it fails, and the offset it reports lies
    between 8 and 54 and is one the buffer cannot serve (the buffer ends at
    or one byte after it). *)
Theorem processUsbInputReport01_domain (buf : ByteArray) :
  (55 <= byteLength buf <-> exists s, processUsbInputReport01 buf = Ok s)
  /\ (forall o,
         processUsbInputReport01 buf = OutOfRange o ->
         byteLength buf < 55 /\ byteLength buf <= o + 1 /\ 8 <= o <= 54).
Proof.
  split; [apply processUsbInputReport01_succeeds |].
  intros o H.
  assert (Hshort : byteLength buf < 55).
  { destruct (Z.lt_ge_cases (byteLength buf) 55) as [Hlt | Hge]; [exact Hlt |].
    apply processUsbInputReport01_succeeds in Hge. destruct Hge as [s Hs].
    congruence. }
  split; [exact Hshort |].
  unfold processUsbInputReport01 in H. cbv beta delta [bind] in H.
  failed_reads H.
Qed.

Lemma processUsbInputReport01_domain_witness :
  processUsbInputReport01 [] = OutOfRange 8
  /\ byteLength [] < 55 /\ byteLength [] <= 8 + 1 /\ 8 <= 8 <= 54.
Proof.
  split; [reflexivity |].
  apply (proj2 (processUsbInputReport01_domain []) 8). reflexivity.
Defined.

(** X5: [processBluetoothInputReport01] decodes exactly the buffers of at
    least 55 bytes; on any shorter buffer it fails, and the offset it
    reports lies between 7 and 54 and is one the buffer cannot serve. *)
Theorem processBluetoothInputReport01_domain (buf : ByteArray) :
  (55 <= byteLength buf
   <-> exists s, processBluetoothInputReport01 buf = Ok s)
  /\ (forall o,
         processBluetoothInputReport01 buf = OutOfRange o ->
         byteLength buf < 55 /\ byteLength buf <= o + 1 /\ 7 <= o <= 54).
Proof.
  split; [apply processBluetoothInputReport01_succeeds |].
  intros o H.
  assert (Hshort : byteLength buf < 55).
  { destruct (Z.lt_ge_cases (byteLength buf) 55) as [Hlt | Hge]; [exact Hlt |].
    apply processBluetoothInputReport01_succeeds in Hge.
    destruct Hge as [s Hs]. congruence. }
  split; [exact Hshort |].
  unfold processBluetoothInputReport01 in H. cbv beta delta [bind] in H.
  failed_reads H.
Qed.

Lemma processBluetoothInputReport01_domain_witness :
  processBluetoothInputReport01 [] = OutOfRange 7
  /\ byteLength [] < 55 /\ byteLength [] <= 7 + 1 /\ 7 <= 7 <= 54.
Proof.
  split; [reflexivity |].
  apply (proj2 (processBluetoothInputReport01_domain []) 7). reflexivity.
Defined.

(** X6: [processOldInputReport] decodes exactly the buffers of at least 56
    bytes on a wireless link and 55 bytes otherwise; on any shorter buffer
    it fails, and the offset it reports lies between the first and the last
    offset it reads and is one the buffer cannot serve. *)
Theorem processOldInputReport_domain (this : HIDProvider) (buf : ByteArray) :
  (56 - legacyOffset this <= byteLength buf
   <-> exists s, processOldInputReport this buf = Ok s)
  /\ (forall o,
         processOldInputReport this buf = OutOfRange o ->
         byteLength buf < 56 - legacyOffset this
         /\ byteLength buf <= o + 1
         /\ 9 - legacyOffset this <= o <= 55 - legacyOffset this).
Proof.
  split; [apply processOldInputReport_succeeds |].
  intros o H.
  assert (Hshort : byteLength buf < 56 - legacyOffset this).
  { destruct (Z.lt_ge_cases (byteLength buf) (56 - legacyOffset this))
      as [Hlt | Hge]; [exact Hlt |].
    apply processOldInputReport_succeeds in Hge. destruct Hge as [s Hs].
    congruence. }
  split; [exact Hshort |].
  assert (Hoff : legacyOffset this = 0 \/ legacyOffset this = 1)
    by (unfold legacyOffset; destruct (wireless this) as [[|] |]; auto).
  unfold processOldInputReport in H. fold (legacyOffset this) in H.
  cbv zeta in H. cbv beta delta [bind] in H.
  failed_reads H.
Qed.

Lemma processOldInputReport_domain_witness :
  processOldInputReport (setWireless idleProvider) (repeat x00 20)
  = OutOfRange 19
  /\ byteLength (repeat x00 20) < 56 - legacyOffset (setWireless idleProvider)
  /\ byteLength (repeat x00 20) <= 19 + 1.
Proof.
  split; [reflexivity |].
  destruct (proj2 (processOldInputReport_domain (setWireless idleProvider)
                     (repeat x00 20)) 19 eq_refl) as (Hshort & Hend & _).
  split; assumption.
Defined.

(** ** The legacy routine against the current one *)

Lemma mapGyroAccel_of_word (lo hi : Z) :
  0 <= lo <= 255 -> 0 <= hi <= 255 ->
  mapGyroAccel lo hi = twosComplement16 (lo + 256 * hi).
Proof.
  intros Hlo Hhi.
  rewrite mapGyroAccel_bytes, twosComplement16_word by lia.
  replace (hi * 256 + lo) with (lo + 256 * hi) by ring. reflexivity.
Qed.

Lemma legacyOffset_wired (this : HIDProvider) :
  wireless this <> Some true -> legacyOffset this = 1.
Proof.
  unfold legacyOffset. destruct (wireless this) as [[|] |]; congruence.
Qed.

(** Evaluates the constant offsets [k - 1] and [k + 1] of the reads in [H]. *)
Ltac fold_offsets_in H :=
  repeat match type of H with
    | context [?a - 1] =>
        let v := eval compute in (a - 1) in change (a - 1) with v in H
    | context [?a - 0] =>
        let v := eval compute in (a - 0) in change (a - 0) with v in H
    | context [?a + 1] =>
        let v := eval compute in (a + 1) in change (a + 1) with v in H
    end.

Ltac split_word H :=
  let lo := fresh "lo" in
  let hi := fresh "hi" in
  let Hlo := fresh "Hlo" in
  let Hhi := fresh "Hhi" in
  let Hbl := fresh "Hbl" in
  let Hbh := fresh "Hbh" in
  apply readUint16LE_Ok in H;
  destruct H as (lo & hi & Hlo & Hhi & -> & _ & _ & Hbl & Hbh);
  fold_offsets_in Hhi.

Ltac rewrite_reads :=
  repeat match goal with
    | H : readUint8 _ _ = Ok _ |- _ => rewrite H
    | H : readUint16LE _ _ = Ok _ |- _ => rewrite H
    end.

Lemma legacy_wired_to_usb (this : HIDProvider) (buf : ByteArray)
    (s' : DualsenseHIDState) :
  wireless this <> Some true ->
  processOldInputReport this buf = Ok s' ->
  processUsbInputReport01 buf = Ok (signMotion s').
Proof.
  intros Hw H.
  unfold processOldInputReport in H. fold (legacyOffset this) in H.
  rewrite (legacyOffset_wired this Hw) in H. cbv zeta in H.
  fold_offsets_in H.
  cbv beta delta [bind] in H. invert_reads H. injection H as <-.
  repeat match goal with
    | H : readUint16LE _ ?k = Ok _ |- _ =>
        first [constr_eq k 16 | constr_eq k 18 | constr_eq k 20
              | constr_eq k 22 | constr_eq k 24 | constr_eq k 26];
        split_word H
    end.
  unfold processUsbInputReport01. cbv beta delta [bind].
  rewrite_reads. cbv beta iota.
  unfold signMotion.
  cbn [GyroX GyroY GyroZ AccelX AccelY AccelZ LeftAnalogX LeftAnalogY
       RightAnalogX RightAnalogY LeftTrigger RightTrigger Triangle Circle
       Cross Square Dpad Up Down Left Right RightAnalogButton
       LeftAnalogButton Options Create RightTriggerButton LeftTriggerButton
       RightBumper LeftBumper Playstation TouchButton Mute Status TouchX0
       TouchY0 TouchContact0 TouchId0 TouchX1 TouchY1 TouchContact1
       TouchId1].
  rewrite <- !mapGyroAccel_of_word by assumption.
  reflexivity.
Qed.

(** X7: on a link that is not wireless, [processOldInputReport] and
    [processUsbInputReport01] decode the same buffers, and the snapshot of
    the current routine is the legacy snapshot with its six motion words
    read as two's complement; every other field is equal. *)
Theorem legacy_wired_is_usb_unsigned (this : HIDProvider) (buf : ByteArray) :
  wireless this <> Some true ->
  (forall s',
      processOldInputReport this buf = Ok s' ->
      processUsbInputReport01 buf = Ok (signMotion s'))
  /\ (forall s,
      processUsbInputReport01 buf = Ok s ->
      exists s', processOldInputReport this buf = Ok s' /\ s = signMotion s').
Proof.
  intros Hw. split.
  - intros s'. apply legacy_wired_to_usb. exact Hw.
  - intros s Hs.
    assert (Hlen : 56 - legacyOffset this <= byteLength buf).
    { rewrite (legacyOffset_wired this Hw).
      assert (55 <= byteLength buf)
        by (apply processUsbInputReport01_succeeds; eauto).
      lia. }
    apply processOldInputReport_succeeds in Hlen. destruct Hlen as [s' Hs'].
    exists s'. split; [exact Hs' |].
    pose proof (legacy_wired_to_usb this buf s' Hw Hs') as Husb.
    congruence.
Qed.

Lemma legacy_wired_is_usb_unsigned_witness :
  exists s',
    processOldInputReport idleProvider sampleUsbReport = Ok s'
    /\ processUsbInputReport01 sampleUsbReport = Ok (signMotion s')
    /\ GyroX s' = 37428 /\ GyroX (signMotion s') = - 28108.
Proof.
  eexists. split; [vm_compute; reflexivity |].
  split; [| split; reflexivity].
  apply (proj1 (legacy_wired_is_usb_unsigned idleProvider sampleUsbReport
                  ltac:(discriminate))).
  vm_compute. reflexivity.
Defined.

Lemma byteAt_cons (b : byte) (rest : ByteArray) (k : Z) :
  1 <= k -> byteAt (b :: rest) k = byteAt rest (k - 1).
Proof.
  intros Hk. unfold byteAt.
  destruct (Z.ltb_spec k 0) as [Hneg | _]; [lia |].
  destruct (Z.ltb_spec (k - 1) 0) as [Hneg | _]; [lia |].
  replace (Z.to_nat k) with (S (Z.to_nat (k - 1))) by lia.
  reflexivity.
Qed.

Lemma readUint8_cons (b : byte) (rest : ByteArray) (k : Z) :
  1 <= k -> readUint8 (b :: rest) k = shiftOffset (readUint8 rest (k - 1)).
Proof.
  intros Hk. unfold readUint8. rewrite byteAt_cons by assumption.
  destruct (byteAt rest (k - 1)); cbn [shiftOffset]; [reflexivity |].
  f_equal. lia.
Qed.

Lemma readUint16LE_cons (b : byte) (rest : ByteArray) (k : Z) :
  1 <= k ->
  readUint16LE (b :: rest) k = shiftOffset (readUint16LE rest (k - 1)).
Proof.
  intros Hk. unfold readUint16LE.
  rewrite !byteAt_cons by lia.
  replace (k + 1 - 1) with (k - 1 + 1) by lia.
  destruct (byteAt rest (k - 1)), (byteAt rest (k - 1 + 1));
    cbn [shiftOffset]; try reflexivity; f_equal; lia.
Qed.

Ltac fold_offsets :=
  repeat match goal with
    | |- context [?a - 1] =>
        let v := eval compute in (a - 1) in change (a - 1) with v
    | |- context [?a - 0] =>
        let v := eval compute in (a - 0) in change (a - 0) with v
    end.

Lemma legacyOffset_wireless (this : HIDProvider) :
  wireless this = Some true -> legacyOffset this = 0.
Proof. unfold legacyOffset. intros ->. reflexivity. Qed.

Lemma bind_shiftOffset {A B : Type} (c : result A) (k1 k2 : A -> result B) :
  (forall a, k1 a = shiftOffset (k2 a)) ->
  bind (shiftOffset c) k1 = shiftOffset (bind c k2).
Proof.
  intros Hk. destruct c as [a | o]; cbn [bind shiftOffset]; [apply Hk |].
  reflexivity.
Qed.

(** X8: the legacy routine on a wireless link reads every field one byte
    further than on a wired link: decoding a buffer on a wireless link is
    decoding the buffer without its first byte on a wired link, snapshot
    for snapshot, and a failure is reported one offset higher. *)
Theorem legacy_wireless_is_shifted (this this' : HIDProvider) (b : byte)
    (rest : ByteArray) :
  wireless this = Some true -> wireless this' <> Some true ->
  processOldInputReport this (b :: rest)
  = shiftOffset (processOldInputReport this' rest).
Proof.
  intros Hw Hw'. unfold processOldInputReport.
  fold (legacyOffset this). fold (legacyOffset this').
  rewrite (legacyOffset_wireless this Hw), (legacyOffset_wired this' Hw').
  cbv zeta. fold_offsets.
  repeat match goal with
    | |- context [readUint8 (b :: rest) ?k] =>
        rewrite (readUint8_cons b rest k) by lia
    | |- context [readUint16LE (b :: rest) ?k] =>
        rewrite (readUint16LE_cons b rest k) by lia
    end.
  fold_offsets.
  repeat (apply bind_shiftOffset; intros ?).
  reflexivity.
Qed.

Lemma legacy_wireless_is_shifted_witness :
  processOldInputReport (setWireless idleProvider) (x31 :: sampleUsbReport)
  = processOldInputReport (setWired idleProvider) sampleUsbReport
  /\ processOldInputReport (setWired idleProvider) (repeat x00 20)
     = OutOfRange 20
  /\ processOldInputReport (setWireless idleProvider) (x31 :: repeat x00 20)
     = OutOfRange 21.
Proof.
  split; [| split; [reflexivity |]];
    rewrite (legacy_wireless_is_shifted (setWireless idleProvider)
               (setWired idleProvider) x31 _ eq_refl ltac:(discriminate));
    vm_compute; reflexivity.
Defined.

(** ** The Bluetooth routine against the wired one *)

Ltac rewrite_reads_in H :=
  repeat match goal with
    | E : readUint8 _ _ = Ok _ |- _ => rewrite E in H
    | E : readUint16LE _ _ = Ok _ |- _ => rewrite E in H
    end.

(** X9: [processBluetoothInputReport01] and [processUsbInputReport01]
    decode the same buffers, and on each of them they agree on the four
    stick axes, the six motion fields, both touch slots and the status
    flag: the two routines differ only in where they take the buttons, the
    d-pad and the triggers from. *)
Theorem bluetooth01_shares_usb_layout (buf : ByteArray) :
  ((exists s, processUsbInputReport01 buf = Ok s)
   <-> (exists s, processBluetoothInputReport01 buf = Ok s))
  /\ (forall su sb,
      processUsbInputReport01 buf = Ok su ->
      processBluetoothInputReport01 buf = Ok sb ->
      sharedFields su = sharedFields sb).
Proof.
  split.
  - rewrite <- processUsbInputReport01_succeeds,
      <- processBluetoothInputReport01_succeeds. reflexivity.
  - intros su sb Hu Hb.
    unfold processUsbInputReport01 in Hu. cbv beta delta [bind] in Hu.
    invert_reads Hu. injection Hu as <-.
    unfold processBluetoothInputReport01 in Hb. cbv beta delta [bind] in Hb.
    rewrite_reads_in Hb. cbv beta iota in Hb.
    invert_reads Hb. injection Hb as <-.
    unfold sharedFields.
    cbn [LeftAnalogX LeftAnalogY RightAnalogX RightAnalogY GyroX GyroY GyroZ
         AccelX AccelY AccelZ TouchId0 TouchContact0 TouchX0 TouchY0
         TouchId1 TouchContact1 TouchX1 TouchY1 Status].
    reflexivity.
Qed.

Lemma bluetooth01_shares_usb_layout_witness :
  exists su sb,
    processUsbInputReport01 sampleUsbReport = Ok su
    /\ processBluetoothInputReport01 sampleUsbReport = Ok sb
    /\ sharedFields su = sharedFields sb
    /\ Cross su = true /\ Cross sb = false.
Proof.
  eexists _, _.
  split; [vm_compute; reflexivity |].
  split; [vm_compute; reflexivity |].
  split; [| split; reflexivity].
  apply (proj2 (bluetooth01_shares_usb_layout sampleUsbReport));
    vm_compute; reflexivity.
Defined.

(** ** Normalized fields *)

Lemma mapAxis255_byte_unit (v : Z) :
  0 <= v <= 255 -> inUnitBall (mapAxis255 (JS.number v)).
Proof.
  intros Hv. unfold inUnitBall.
  pose proof (forall_below
    (fun v => (-1 <=? mapAxis255 (JS.number v))%float
              && (mapAxis255 (JS.number v) <=? 1)%float)
    256 ltac:(vm_compute; reflexivity) v ltac:(lia)) as H.
  cbv beta in H. apply andb_true_iff in H. exact H.
Qed.

Lemma mapAxis255_byte_unit_opp (v : Z) :
  0 <= v <= 255 -> inUnitBall (- mapAxis255 (JS.number v))%float.
Proof.
  intros Hv. unfold inUnitBall.
  pose proof (forall_below
    (fun v => (-1 <=? - mapAxis255 (JS.number v))%float
              && (- mapAxis255 (JS.number v) <=? 1)%float)
    256 ltac:(vm_compute; reflexivity) v ltac:(lia)) as H.
  cbv beta in H. apply andb_true_iff in H. exact H.
Qed.

Lemma mapTrigger_byte_unit (v : Z) :
  0 <= v <= 255 -> inUnitInterval (mapTrigger (JS.number v)).
Proof.
  intros Hv. unfold inUnitInterval.
  pose proof (forall_below
    (fun v => (0 <=? mapTrigger (JS.number v))%float
              && (mapTrigger (JS.number v) <=? 1)%float)
    256 ltac:(vm_compute; reflexivity) v ltac:(lia)) as H.
  cbv beta in H. apply andb_true_iff in H. exact H.
Qed.

Lemma touchX_word_unit (buf : ByteArray) (offset raw : Z) :
  readUint16LE buf offset = Ok raw ->
  inUnitBall (mapAxis (JS.number (touchX raw)) 1920).
Proof.
  intros H. apply readUint16LE_range in H.
  destruct (touch_ranges raw H) as [Hx _].
  destruct (mapAxis_touchX_clamps _ Hx) as (_ & Hlx & Hux).
  split; assumption.
Qed.

Lemma touchY_word_unit (buf : ByteArray) (offset raw : Z) :
  readUint16LE buf offset = Ok raw ->
  inUnitBall (mapAxis (JS.number (touchY raw)) 1080).
Proof.
  intros H. apply readUint16LE_range in H.
  destruct (touch_ranges raw H) as [_ Hy].
  destruct (mapAxis_touchY_clamps _ Hy) as (_ & Hly & Huy).
  split; assumption.
Qed.

Ltac solve_normalized :=
  unfold normalized;
  cbn [LeftAnalogX LeftAnalogY RightAnalogX RightAnalogY LeftTrigger
       RightTrigger TouchX0 TouchY0 TouchX1 TouchY1];
  split;
  repeat first [apply Forall_nil | apply Forall_cons];
  lazymatch goal with
  | |- inUnitBall (mapAxis255 (JS.number ?v)) =>
      apply (mapAxis255_byte_unit v); eapply readUint8_Ok; eassumption
  | |- inUnitBall (- mapAxis255 (JS.number ?v))%float =>
      apply (mapAxis255_byte_unit_opp v); eapply readUint8_Ok; eassumption
  | |- inUnitInterval (mapTrigger (JS.number ?v)) =>
      apply (mapTrigger_byte_unit v); eapply readUint8_Ok; eassumption
  | |- inUnitBall (mapAxis (JS.number (touchX ?w)) _) =>
      eapply (touchX_word_unit _ _ w); eassumption
  | |- inUnitBall (mapAxis (JS.number (touchY ?w)) _) =>
      eapply (touchY_word_unit _ _ w); eassumption
  end.

(** X10: every snapshot any of the three routines produces is normalized:
    the four stick axes and the four touch coordinates lie in [-1, 1] and
    both triggers in [0, 1], whatever the bytes of the buffer. *)
Theorem decoded_snapshot_normalized (this : HIDProvider) (buf : ByteArray)
    (s : DualsenseHIDState) :
  processUsbInputReport01 buf = Ok s
  \/ processBluetoothInputReport01 buf = Ok s
  \/ processOldInputReport this buf = Ok s ->
  normalized s.
Proof.
  intros [H | [H | H]].
  - unfold processUsbInputReport01 in H. cbv beta delta [bind] in H.
    invert_reads H. injection H as <-. solve_normalized.
  - unfold processBluetoothInputReport01 in H. cbv beta delta [bind] in H.
    invert_reads H. injection H as <-. solve_normalized.
  - unfold processOldInputReport in H. cbv zeta in H.
    cbv beta delta [bind] in H.
    invert_reads H. injection H as <-. solve_normalized.
Qed.

Lemma decoded_snapshot_normalized_witness :
  exists s,
    processUsbInputReport01 saturatedTouchReport = Ok s /\ normalized s.
Proof.
  eexists. split; [vm_compute; reflexivity |].
  apply (decoded_snapshot_normalized idleProvider saturatedTouchReport).
  left. vm_compute. reflexivity.
Defined.

(** ** Buttons, d-pad and touch slots as bits of the report *)

Lemma buttons_byte_recovered (v : Z) :
  0 <= v <= 255 ->
  128 * Z.b2z ((v >> 4) .& 8 >? 0) + 64 * Z.b2z ((v >> 4) .& 4 >? 0)
  + 32 * Z.b2z ((v >> 4) .& 2 >? 0) + 16 * Z.b2z ((v >> 4) .& 1 >? 0)
  + v .& 15 = v.
Proof.
  intros Hv. apply Z.eqb_eq.
  exact (forall_below
    (fun v => 128 * Z.b2z ((v >> 4) .& 8 >? 0)
              + 64 * Z.b2z ((v >> 4) .& 4 >? 0)
              + 32 * Z.b2z ((v >> 4) .& 2 >? 0)
              + 16 * Z.b2z ((v >> 4) .& 1 >? 0) + v .& 15 =? v)
    256 ltac:(vm_compute; reflexivity) v ltac:(lia)).
Qed.

Lemma misc_byte_recovered (v : Z) :
  0 <= v <= 255 ->
  Z.b2z (v .& 1 >? 0) + 2 * Z.b2z (v .& 2 >? 0) + 4 * Z.b2z (v .& 4 >? 0)
  + 8 * Z.b2z (v .& 8 >? 0) + 16 * Z.b2z (v .& 16 >? 0)
  + 32 * Z.b2z (v .& 32 >? 0) + 64 * Z.b2z (v .& 64 >? 0)
  + 128 * Z.b2z (v .& 128 >? 0) = v.
Proof.
  intros Hv. apply Z.eqb_eq.
  exact (forall_below
    (fun v => Z.b2z (v .& 1 >? 0) + 2 * Z.b2z (v .& 2 >? 0)
              + 4 * Z.b2z (v .& 4 >? 0) + 8 * Z.b2z (v .& 8 >? 0)
              + 16 * Z.b2z (v .& 16 >? 0) + 32 * Z.b2z (v .& 32 >? 0)
              + 64 * Z.b2z (v .& 64 >? 0) + 128 * Z.b2z (v .& 128 >? 0)
              =? v)
    256 ltac:(vm_compute; reflexivity) v ltac:(lia)).
Qed.

Lemma last_bits_recovered (v : Z) :
  0 <= v <= 255 ->
  v mod 8
  = Z.b2z (v .& 1 >? 0) + 2 * Z.b2z (v .& 2 >? 0) + 4 * Z.b2z (v .& 4 >? 0).
Proof.
  intros Hv. apply Z.eqb_eq.
  exact (forall_below
    (fun v => v mod 8 =? Z.b2z (v .& 1 >? 0) + 2 * Z.b2z (v .& 2 >? 0)
                         + 4 * Z.b2z (v .& 4 >? 0))
    256 ltac:(vm_compute; reflexivity) v ltac:(lia)).
Qed.

(** Puts the byte range of every successful 8-bit read in the context. *)
Ltac note_byte_ranges :=
  repeat match goal with
    | E : readUint8 _ _ = Ok ?v |- _ =>
        lazymatch goal with
        | B : 0 <= v <= 255 |- _ => fail
        | _ => pose proof (proj2 (readUint8_Ok _ _ _ E))
        end
    end.

Ltac solve_buttonBytes :=
  unfold buttonBytes, buttonsByte, miscByte, lastBits;
  cbn [Triangle Circle Cross Square Dpad LeftBumper RightBumper
       LeftTriggerButton RightTriggerButton Create Options LeftAnalogButton
       RightAnalogButton Playstation TouchButton Mute];
  note_byte_ranges;
  rewrite buttons_byte_recovered, misc_byte_recovered by assumption;
  split; [assumption | split; [assumption |]];
  eexists; split; [eassumption | apply last_bits_recovered; assumption].

Lemma usb_button_bytes (buf : ByteArray) (s : DualsenseHIDState) :
  processUsbInputReport01 buf = Ok s -> buttonBytes buf 8 s.
Proof.
  intros H. unfold processUsbInputReport01 in H.
  cbv beta delta [bind] in H. invert_reads H. injection H as <-.
  unfold buttonBytes. change (8 + 1) with 9. change (8 + 2) with 10.
  solve_buttonBytes.
Qed.

Lemma bluetooth01_button_bytes (buf : ByteArray) (s : DualsenseHIDState) :
  processBluetoothInputReport01 buf = Ok s -> buttonBytes buf 7 s.
Proof.
  intros H. unfold processBluetoothInputReport01 in H.
  cbv beta delta [bind] in H. invert_reads H. injection H as <-.
  unfold buttonBytes. change (7 + 1) with 8. change (7 + 2) with 9.
  solve_buttonBytes.
Qed.

Lemma legacy_button_bytes (this : HIDProvider) (buf : ByteArray)
    (s : DualsenseHIDState) :
  processOldInputReport this buf = Ok s ->
  buttonBytes buf (9 - legacyOffset this) s.
Proof.
  intros H. unfold processOldInputReport in H.
  fold (legacyOffset this) in H. cbv zeta in H.
  cbv beta delta [bind] in H. invert_reads H. injection H as <-.
  unfold buttonBytes.
  replace (9 - legacyOffset this + 1) with (10 - legacyOffset this) by lia.
  replace (9 - legacyOffset this + 2) with (11 - legacyOffset this) by lia.
  solve_buttonBytes.
Qed.

Lemma touch_byte_recovered (v : Z) :
  0 <= v <= 255 ->
  v = touchByte (v .& 0x7f) (v .& 0x80 =? 0) /\ 0 <= v .& 0x7f <= 127.
Proof.
  intros Hv.
  pose proof (forall_below
    (fun v => (v =? touchByte (v .& 0x7f) (v .& 0x80 =? 0))
              && ((0 <=? v .& 0x7f) && (v .& 0x7f <=? 127)))
    256 ltac:(vm_compute; reflexivity) v ltac:(lia)) as H.
  cbv beta in H. rewrite !andb_true_iff in H.
  destruct H as (He & Hl & Hu).
  apply Z.eqb_eq in He. apply Z.leb_le in Hl. apply Z.leb_le in Hu. lia.
Qed.

Lemma touchX_of_bytes (b1 b2 : Z) :
  0 <= b1 <= 255 -> 0 <= b2 <= 255 ->
  touchX (b1 + 256 * b2) = signed12 (b1 + 256 * (b2 mod 16)).
Proof.
  intros H1 H2. rewrite touchX_sign_extends by lia. unfold signed12.
  f_equal. Z.div_mod_to_equations. lia.
Qed.

Lemma touchY_of_bytes (b2 b3 : Z) :
  0 <= b2 <= 255 -> 0 <= b3 <= 255 ->
  touchY (b2 + 256 * b3) = b2 / 16 + 16 * b3.
Proof.
  intros H2 H3. rewrite touchY_high_bits by lia.
  Z.div_mod_to_equations. lia.
Qed.

Lemma touchSlotBytes_intro (buf : ByteArray) (offset b0 rawX rawY : Z) :
  readUint8 buf offset = Ok b0 ->
  readUint16LE buf (offset + 1) = Ok rawX ->
  readUint16LE buf (offset + 2) = Ok rawY ->
  touchSlotBytes buf offset (b0 .& 0x7f) (b0 .& 0x80 =? 0)
    (mapAxis (JS.number (touchX rawX)) 1920)
    (mapAxis (JS.number (touchY rawY)) 1080).
Proof.
  intros H0 HX HY.
  apply readUint16LE_Ok in HX.
  destruct HX as (b1 & b2 & Hb1 & Hb2 & -> & _ & _ & Hr1 & Hr2).
  apply readUint16LE_Ok in HY.
  destruct HY as (b2' & b3 & Hb2' & Hb3 & -> & _ & _ & Hr2' & Hr3).
  replace (offset + 1 + 1) with (offset + 2) in Hb2 by lia.
  replace (offset + 2 + 1) with (offset + 3) in Hb3 by lia.
  assert (b2' = b2) by congruence. subst b2'.
  destruct (touch_byte_recovered b0 (proj2 (readUint8_Ok _ _ _ H0)))
    as [Hbyte Hid].
  exists b0, b1, b2, b3.
  rewrite touchX_of_bytes, touchY_of_bytes by assumption.
  repeat split; try assumption; lia.
Qed.

(** X12: each touch slot is four consecutive bytes, at offsets 33 and 37 in
    the current routines and one further on a legacy wireless link: the
    first byte is the tracking id (0..127) with bit 7 set when there is no
    contact, X is the signed 12-bit field made of the second byte and the
    low nibble of the third, Y the unsigned 12-bit field made of the high
    nibble of the third byte and the fourth. *)
Theorem touch_slots_layout :
  (forall decode buf s,
      decode = processUsbInputReport01
      \/ decode = processBluetoothInputReport01 ->
      decode buf = Ok s ->
      touchSlotBytes buf 33 (TouchId0 s) (TouchContact0 s)
        (TouchX0 s) (TouchY0 s)
      /\ touchSlotBytes buf 37 (TouchId1 s) (TouchContact1 s)
           (TouchX1 s) (TouchY1 s))
  /\ (forall this buf s,
      processOldInputReport this buf = Ok s ->
      touchSlotBytes buf (34 - legacyOffset this) (TouchId0 s)
        (TouchContact0 s) (TouchX0 s) (TouchY0 s)
      /\ touchSlotBytes buf (38 - legacyOffset this) (TouchId1 s)
           (TouchContact1 s) (TouchX1 s) (TouchY1 s)).
Proof.
  split.
  - intros decode buf s [-> | ->] H.
    + unfold processUsbInputReport01 in H. cbv beta delta [bind] in H.
      invert_reads H. injection H as <-.
      cbn [TouchId0 TouchContact0 TouchX0 TouchY0
           TouchId1 TouchContact1 TouchX1 TouchY1].
      split; apply touchSlotBytes_intro; assumption.
    + unfold processBluetoothInputReport01 in H. cbv beta delta [bind] in H.
      invert_reads H. injection H as <-.
      cbn [TouchId0 TouchContact0 TouchX0 TouchY0
           TouchId1 TouchContact1 TouchX1 TouchY1].
      split; apply touchSlotBytes_intro; assumption.
  - intros this buf s H. unfold processOldInputReport in H.
    fold (legacyOffset this) in H. cbv zeta in H.
    cbv beta delta [bind] in H. invert_reads H. injection H as <-.
    cbn [TouchId0 TouchContact0 TouchX0 TouchY0
         TouchId1 TouchContact1 TouchX1 TouchY1].
    split; apply touchSlotBytes_intro; try assumption.
    + replace (34 - legacyOffset this + 1) with (35 - legacyOffset this)
        by lia. assumption.
    + replace (34 - legacyOffset this + 2) with (36 - legacyOffset this)
        by lia. assumption.
    + replace (38 - legacyOffset this + 1) with (39 - legacyOffset this)
        by lia. assumption.
    + replace (38 - legacyOffset this + 2) with (40 - legacyOffset this)
        by lia. assumption.
Qed.

Lemma touch_slots_layout_witness :
  exists s,
    processUsbInputReport01 sampleUsbReport = Ok s
    /\ touchSlotBytes sampleUsbReport 33 (TouchId0 s) (TouchContact0 s)
         (TouchX0 s) (TouchY0 s)
    /\ TouchId0 s = 5 /\ TouchContact0 s = true
    /\ TouchX0 s = mapAxis (JS.number 0x12c) 1920
    /\ TouchY0 s = mapAxis (JS.number 0x1f4) 1080.
Proof.
  eexists. split; [vm_compute; reflexivity |].
  split; [| repeat split; vm_compute; reflexivity].
  apply (proj1 touch_slots_layout processUsbInputReport01 sampleUsbReport _
           (or_introl eq_refl)).
  vm_compute. reflexivity.
Defined.

Lemma directions_exclusive (v : Z) :
  0 <= v <= 255 ->
  let dpad := v .& 15 in
  0 <= dpad <= 15
  /\ ((dpad <? 2) || (dpad =? 7)) && ((dpad >? 2) && (dpad <? 6)) = false
  /\ ((dpad >? 4) && (dpad <? 8)) && ((dpad >? 0) && (dpad <? 4)) = false
  /\ (8 <= dpad ->
      ((dpad <? 2) || (dpad =? 7), (dpad >? 2) && (dpad <? 6),
       (dpad >? 4) && (dpad <? 8), (dpad >? 0) && (dpad <? 4))
      = (false, false, false, false)).
Proof.
  intros Hv dpad. subst dpad. rewrite band_byte by lia.
  pose proof (nibble_range v Hv) as Hn.
  set (dpad := Z.land v 15) in *. clearbody dpad.
  split; [exact Hn |].
  split; [| split].
  - destruct (Z.ltb_spec dpad 2), (Z.eqb_spec dpad 7), (Z.gtb_spec dpad 2),
      (Z.ltb_spec dpad 6); cbn; try reflexivity; lia.
  - destruct (Z.gtb_spec dpad 4), (Z.ltb_spec dpad 8), (Z.gtb_spec dpad 0),
      (Z.ltb_spec dpad 4); cbn; try reflexivity; lia.
  - intros H8.
    destruct (Z.ltb_spec dpad 2), (Z.eqb_spec dpad 7), (Z.gtb_spec dpad 2),
      (Z.ltb_spec dpad 6), (Z.gtb_spec dpad 4), (Z.ltb_spec dpad 8),
      (Z.gtb_spec dpad 0), (Z.ltb_spec dpad 4); cbn; try reflexivity; lia.
Qed.

(** X13: in every snapshot of the three routines the raw d-pad value lies
    in 0..15, Up and Down are never both set, Left and Right are never both
    set, and every value from 8 on (the neutral 8 and the unused 9..15)
    gives no direction at all. *)
Theorem dpad_directions_exclusive (this : HIDProvider) (buf : ByteArray)
    (s : DualsenseHIDState) :
  processUsbInputReport01 buf = Ok s
  \/ processBluetoothInputReport01 buf = Ok s
  \/ processOldInputReport this buf = Ok s ->
  0 <= Dpad s <= 15
  /\ Up s && Down s = false
  /\ Left s && Right s = false
  /\ (8 <= Dpad s -> directions s = (false, false, false, false)).
Proof.
  intros [H | [H | H]].
  - unfold processUsbInputReport01 in H. invert_decode H.
    unfold directions; cbn [Up Down Left Right Dpad].
    apply directions_exclusive. eapply readUint8_Ok. eassumption.
  - unfold processBluetoothInputReport01 in H. invert_decode H.
    unfold directions; cbn [Up Down Left Right Dpad].
    apply directions_exclusive. eapply readUint8_Ok. eassumption.
  - unfold processOldInputReport in H. cbv zeta in H. invert_decode H.
    unfold directions; cbn [Up Down Left Right Dpad].
    apply directions_exclusive. eapply readUint8_Ok. eassumption.
Qed.

Lemma dpad_directions_exclusive_witness :
  exists s,
    processBluetoothInputReport01 sampleBluetoothReport = Ok s
    /\ Dpad s = 8
    /\ Up s && Down s = false
    /\ directions s = (false, false, false, false).
Proof.
  eexists. split; [vm_compute; reflexivity |].
  split; [reflexivity |].
  destruct (dpad_directions_exclusive idleProvider sampleBluetoothReport _
              ltac:(right; left; vm_compute; reflexivity))
    as (_ & Hud & _ & Hneutral).
  split; [exact Hud | apply Hneutral; vm_compute; discriminate].
Defined.

(** * Further properties of the connection classifier *)

Lemma autodetect_state (this : HIDProvider) (buf : ByteArray) :
  fst (autodetectConnectionType this buf)
  = {| device := device this; wireless := wirelessOf buf;
       buffer := buffer this;
       unknownDevice := unknownDevice this || negb (recognized buf);
       oldFirmware := oldFirmware this |}.
Proof.
  unfold autodetectConnectionType, wirelessOf, recognized.
  change (DUAL_SENSE_USB_INPUT_REPORT_0x01_SIZE + 1) with 64.
  change (DUAL_SENSE_BT_INPUT_REPORT_0x31_SIZE + 1) with 78.
  destruct (byteLength buf =? 64); cbn [fst orb negb].
  - rewrite orb_false_r. reflexivity.
  - destruct (byteLength buf =? 78); cbn [fst orb negb].
    + rewrite orb_false_r. reflexivity.
    + rewrite orb_true_r. reflexivity.
Qed.

Lemma autodetect_errors (this : HIDProvider) (buf : ByteArray) :
  snd (autodetectConnectionType this buf)
  = if unknownDevice this || recognized buf then []
    else [cannotAutodetect (byteLength buf)].
Proof.
  unfold autodetectConnectionType, recognized.
  change (DUAL_SENSE_USB_INPUT_REPORT_0x01_SIZE + 1) with 64.
  change (DUAL_SENSE_BT_INPUT_REPORT_0x31_SIZE + 1) with 78.
  destruct (byteLength buf =? 64); cbn [snd orb].
  - rewrite orb_true_r. reflexivity.
  - destruct (byteLength buf =? 78); cbn [snd orb].
    + rewrite orb_true_r. reflexivity.
    + rewrite orb_false_r. destruct (unknownDevice this); reflexivity.
Qed.

Lemma autodetectAll_cons (this : HIDProvider) (buf : ByteArray)
    (rest : list ByteArray) :
  autodetectAll this (buf :: rest)
  = (fst (autodetectAll (fst (autodetectConnectionType this buf)) rest),
     snd (autodetectConnectionType this buf)
     ++ snd (autodetectAll (fst (autodetectConnectionType this buf)) rest)).
Proof.
  cbn [autodetectAll].
  destruct (autodetectConnectionType this buf) as [this1 errs1].
  cbn [fst snd]. destruct (autodetectAll this1 rest). reflexivity.
Qed.

Lemma autodetectAll_frame (bufs : list ByteArray) :
  forall this : HIDProvider,
    device (fst (autodetectAll this bufs)) = device this
    /\ buffer (fst (autodetectAll this bufs)) = buffer this
    /\ oldFirmware (fst (autodetectAll this bufs)) = oldFirmware this.
Proof.
  induction bufs as [| buf rest IH]; intros this; [cbn; auto |].
  rewrite autodetectAll_cons. cbn [fst].
  destruct (IH (fst (autodetectConnectionType this buf))) as (Hd & Hb & Ho).
  rewrite Hd, Hb, Ho, autodetect_state. cbn. auto.
Qed.

Lemma autodetectAll_last (bufs : list ByteArray) (buf : ByteArray) :
  forall this : HIDProvider,
    wireless (fst (autodetectAll this (bufs ++ [buf]))) = wirelessOf buf.
Proof.
  induction bufs as [| b rest IH]; intros this.
  - cbn [app]. rewrite autodetectAll_cons. cbn [autodetectAll fst].
    rewrite autodetect_state. reflexivity.
  - cbn [app]. rewrite autodetectAll_cons. cbn [fst]. apply IH.
Qed.

(** X14: after any sequence of buffers the wireless state is decided by the
    last buffer alone -- wired for 64 bytes, wireless for 78, undefined
    otherwise -- so neither an earlier buffer nor [setWired] or
    [setWireless] survives a call of the classifier; the device handle, the
    stored buffer and the old-firmware switch are never touched. *)
Theorem autodetect_last_buffer_decides (this : HIDProvider)
    (bufs : list ByteArray) (buf : ByteArray) :
  let this' := fst (autodetectAll this (bufs ++ [buf])) in
  wireless this' = wirelessOf buf
  /\ wireless (fst (autodetectAll (setWired this) (bufs ++ [buf])))
     = wireless this'
  /\ wireless (fst (autodetectAll (setWireless this) (bufs ++ [buf])))
     = wireless this'
  /\ device this' = device this
  /\ buffer this' = buffer this
  /\ oldFirmware this' = oldFirmware this.
Proof.
  cbv zeta. rewrite !autodetectAll_last.
  repeat (split; [reflexivity |]).
  apply autodetectAll_frame.
Qed.

Lemma autodetectAll_report (bufs : list ByteArray) :
  forall this : HIDProvider,
    snd (autodetectAll this bufs)
    = (if unknownDevice this then []
       else match find (fun b => negb (recognized b)) bufs with
            | Some b => [cannotAutodetect (byteLength b)]
            | None => []
            end)
    /\ unknownDevice (fst (autodetectAll this bufs))
       = unknownDevice this || existsb (fun b => negb (recognized b)) bufs.
Proof.
  induction bufs as [| buf rest IH]; intros this.
  - cbn. rewrite orb_false_r. destruct (unknownDevice this); auto.
  - rewrite autodetectAll_cons. cbn [fst snd find existsb].
    destruct (IH (fst (autodetectConnectionType this buf))) as [Herrs Hflag].
    rewrite Herrs, Hflag, autodetect_errors, autodetect_state.
    cbn [unknownDevice].
    destruct (unknownDevice this), (recognized buf); cbn [orb negb app];
      split; reflexivity.
Qed.

(** X15: over any sequence of buffers, of whatever lengths, the classifier
    reports at most one error: none if the unknown-device flag was already
    set or every length is 64 or 78, otherwise exactly one, carrying the
    length of the first buffer that is neither; the flag ends up set
    exactly when it was set before or some buffer was unrecognized. *)
Theorem autodetect_reports_first_unrecognized (this : HIDProvider)
    (bufs : list ByteArray) :
  snd (autodetectAll this bufs)
  = (if unknownDevice this then []
     else match find (fun b => negb (recognized b)) bufs with
          | Some b => [cannotAutodetect (byteLength b)]
          | None => []
          end)
  /\ (List.length (snd (autodetectAll this bufs)) <= 1)%nat
  /\ unknownDevice (fst (autodetectAll this bufs))
     = unknownDevice this || existsb (fun b => negb (recognized b)) bufs.
Proof.
  destruct (autodetectAll_report bufs this) as [Herrs Hflag].
  split; [exact Herrs |]. split; [| exact Hflag].
  rewrite Herrs.
  destruct (unknownDevice this); [cbn; lia |].
  destruct (find (fun b => negb (recognized b)) bufs); cbn; lia.
Qed.

(** X16: classifying the same buffer a second time changes nothing and
    reports nothing, whatever its length. *)
Theorem autodetect_idempotent (this : HIDProvider) (buf : ByteArray) :
  autodetectConnectionType (fst (autodetectConnectionType this buf)) buf
  = (fst (autodetectConnectionType this buf), []).
Proof.
  rewrite (surjective_pairing
             (autodetectConnectionType
                (fst (autodetectConnectionType this buf)) buf)).
  rewrite autodetect_errors, !autodetect_state. cbn [device wireless buffer
    unknownDevice oldFirmware].
  destruct (unknownDevice this), (recognized buf); reflexivity.
Qed.

(** X17: [reset] undoes whatever the classifier and the overrides did:
    resetting after any sequence of buffers, or after [setWired] or
    [setWireless], gives the state that resetting at once gives, with no
    device, no buffer, an undefined wireless state and a clear flag; only
    the old-firmware switch is kept. *)
Theorem reset_forgets_classification (this : HIDProvider)
    (bufs : list ByteArray) :
  reset (fst (autodetectAll this bufs)) = reset this
  /\ reset (setWired this) = reset this
  /\ reset (setWireless this) = reset this
  /\ reset (reset this) = reset this
  /\ reset this
     = {| device := None; wireless := None; buffer := None;
          unknownDevice := false; oldFirmware := oldFirmware this |}.
Proof.
  split; [| repeat split; reflexivity].
  unfold reset.
  destruct (autodetectAll_frame bufs this) as (_ & _ & Hold).
  rewrite Hold. reflexivity.
Qed.

(** * What a report's bytes contribute to the snapshot *)

Lemma increasing_injective (f : Z -> float) (a b : Z) :
  (forall a b, 0 <= a -> a < b -> b <= 255 ->
               (f a <? f b)%float = true) ->
  0 <= a <= 255 -> 0 <= b <= 255 -> f a = f b -> a = b.
Proof.
  intros Hinc Ha Hb Heq.
  destruct (Z.lt_trichotomy a b) as [Hlt | [Heqab | Hgt]]; [| exact Heqab |].
  - pose proof (Hinc a b ltac:(lia) Hlt ltac:(lia)) as H.
    rewrite Heq, ltb_irrefl in H. discriminate.
  - pose proof (Hinc b a ltac:(lia) Hgt ltac:(lia)) as H.
    rewrite Heq, ltb_irrefl in H. discriminate.
Qed.

Lemma opp_injective (x y : float) : (- x = - y)%float -> x = y.
Proof.
  intros H. apply Prim2SF_inj.
  apply (f_equal Prim2SF) in H. rewrite !FloatAxioms.opp_spec in H.
  destruct (Prim2SF x) as [sx | sx | | sx mx ex],
           (Prim2SF y) as [sy | sy | | sy my ey];
    cbn in H; try discriminate; try reflexivity;
    injection H; intros; subst;
    repeat match goal with
      | E : negb ?a = negb ?b |- _ => destruct a, b; try discriminate; clear E
      end; reflexivity.
Qed.

Lemma stick_byte_injective (a b : Z) :
  0 <= a <= 255 -> 0 <= b <= 255 ->
  mapAxis255 (JS.number a) = mapAxis255 (JS.number b) -> a = b.
Proof.
  apply (increasing_injective (fun v => mapAxis255 (JS.number v))).
  exact mapAxis255_increasing.
Qed.

Lemma trigger_byte_injective (a b : Z) :
  0 <= a <= 255 -> 0 <= b <= 255 ->
  mapTrigger (JS.number a) = mapTrigger (JS.number b) -> a = b.
Proof.
  apply (increasing_injective (fun v => mapTrigger (JS.number v))).
  exact mapTrigger_increasing.
Qed.

Lemma motion_bytes_injective (lo hi lo' hi' : Z) :
  0 <= lo <= 255 -> 0 <= hi <= 255 -> 0 <= lo' <= 255 -> 0 <= hi' <= 255 ->
  mapGyroAccel lo hi = mapGyroAccel lo' hi' -> lo = lo' /\ hi = hi'.
Proof.
  intros Hlo Hhi Hlo' Hhi'. rewrite !mapGyroAccel_bytes by assumption.
  destruct (Z.gtb_spec (hi * 256 + lo) 32767),
           (Z.gtb_spec (hi' * 256 + lo') 32767); lia.
Qed.

Lemma buttons_byte_injective (a b : Z) :
  0 <= a <= 255 -> 0 <= b <= 255 ->
  ((a >> 4) .& 8 >? 0) = ((b >> 4) .& 8 >? 0) ->
  ((a >> 4) .& 4 >? 0) = ((b >> 4) .& 4 >? 0) ->
  ((a >> 4) .& 2 >? 0) = ((b >> 4) .& 2 >? 0) ->
  ((a >> 4) .& 1 >? 0) = ((b >> 4) .& 1 >? 0) ->
  a .& 15 = b .& 15 -> a = b.
Proof.
  intros Ha Hb H8 H4 H2 H1 Hd.
  rewrite <- (buttons_byte_recovered a Ha), <- (buttons_byte_recovered b Hb).
  rewrite H8, H4, H2, H1, Hd. reflexivity.
Qed.

Lemma misc_byte_injective (a b : Z) :
  0 <= a <= 255 -> 0 <= b <= 255 ->
  (a .& 1 >? 0) = (b .& 1 >? 0) -> (a .& 2 >? 0) = (b .& 2 >? 0) ->
  (a .& 4 >? 0) = (b .& 4 >? 0) -> (a .& 8 >? 0) = (b .& 8 >? 0) ->
  (a .& 16 >? 0) = (b .& 16 >? 0) -> (a .& 32 >? 0) = (b .& 32 >? 0) ->
  (a .& 64 >? 0) = (b .& 64 >? 0) -> (a .& 128 >? 0) = (b .& 128 >? 0) ->
  a = b.
Proof.
  intros Ha Hb H1 H2 H4 H8 H16 H32 H64 H128.
  rewrite <- (misc_byte_recovered a Ha), <- (misc_byte_recovered b Hb).
  rewrite H1, H2, H4, H8, H16, H32, H64, H128. reflexivity.
Qed.

(** Turns the equations between the fields of two snapshots into
    equations between the bytes they were decoded from. *)
Ltac bytes_of_fields :=
  repeat match goal with
    | E : (- _ = - _)%float |- _ => apply opp_injective in E
    | E : mapAxis255 (JS.number ?a) = mapAxis255 (JS.number ?b) |- _ =>
        apply (stick_byte_injective a b) in E; [| assumption | assumption]
    | E : mapTrigger (JS.number ?a) = mapTrigger (JS.number ?b) |- _ =>
        apply (trigger_byte_injective a b) in E; [| assumption | assumption]
    | E : mapGyroAccel ?a ?b = mapGyroAccel ?c ?d |- _ =>
        apply (motion_bytes_injective a b c d) in E;
        [destruct E | assumption | assumption | assumption | assumption]
    end.

(** X18: the snapshot of [processUsbInputReport01] keeps the bytes of the
    sticks, triggers, buttons and motion sensors in full: two buffers that
    decode to the same snapshot hold the same bytes at offsets 1..6, 8, 9
    and 16..27. *)
Theorem usb_snapshot_determines_bytes (buf buf' : ByteArray)
    (s : DualsenseHIDState) :
  processUsbInputReport01 buf = Ok s ->
  processUsbInputReport01 buf' = Ok s ->
  Forall (fun k => readUint8 buf k = readUint8 buf' k)
    [1; 2; 3; 4; 5; 6; 8; 9; 16; 17; 18; 19; 20; 21; 22; 23; 24; 25; 26; 27].
Proof.
  intros H H'.
  unfold processUsbInputReport01 in H. cbv beta delta [bind] in H.
  invert_reads H. injection H as <-.
  unfold processUsbInputReport01 in H'. cbv beta delta [bind] in H'.
  invert_reads H'. note_byte_ranges. injection H'; intros. clear H'.
  bytes_of_fields.
  match goal with
  | E : readUint8 buf 8 = Ok ?a, E' : readUint8 buf' 8 = Ok ?b |- _ =>
      assert (b = a) by (apply buttons_byte_injective; assumption)
  end.
  match goal with
  | E : readUint8 buf 9 = Ok ?a, E' : readUint8 buf' 9 = Ok ?b |- _ =>
      assert (b = a) by (apply misc_byte_injective; assumption)
  end.
  repeat constructor;
    match goal with
    | |- readUint8 buf ?k = readUint8 buf' ?k =>
        match goal with
        | E : readUint8 buf k = Ok _, E' : readUint8 buf' k = Ok _ |- _ =>
            rewrite E, E'; congruence
        end
    end.
Qed.

Lemma usb_snapshot_determines_bytes_witness :
  Forall (fun k => readUint8 sampleUsbReport k
                   = readUint8 (sampleUsbReport ++ [xff]) k)
    [1; 2; 3; 4; 5; 6; 8; 9; 16; 17; 18; 19; 20; 21; 22; 23; 24; 25; 26; 27].
Proof.
  eapply (usb_snapshot_determines_bytes sampleUsbReport
            (sampleUsbReport ++ [xff])); vm_compute; reflexivity.
Defined.

(** ** Bytes the routines never read *)

Lemma byteAt_app (buf extra : ByteArray) (k v : Z) :
  byteAt buf k = Some v -> byteAt (buf ++ extra) k = Some v.
Proof.
  unfold byteAt. destruct (k <? 0); [discriminate |].
  destruct (nth_error buf (Z.to_nat k)) as [b |] eqn:E; [| discriminate].
  rewrite nth_error_app1 by (apply nth_error_Some; congruence).
  rewrite E. auto.
Qed.

Lemma readUint8_app (buf extra : ByteArray) (k v : Z) :
  readUint8 buf k = Ok v -> readUint8 (buf ++ extra) k = Ok v.
Proof.
  unfold readUint8. intros H.
  destruct (byteAt buf k) as [w |] eqn:E; [| discriminate].
  rewrite (byteAt_app buf extra k w E). exact H.
Qed.

Lemma readUint16LE_app (buf extra : ByteArray) (k v : Z) :
  readUint16LE buf k = Ok v -> readUint16LE (buf ++ extra) k = Ok v.
Proof.
  unfold readUint16LE. intros H.
  destruct (byteAt buf k) as [lo |] eqn:El; [| discriminate].
  destruct (byteAt buf (k + 1)) as [hi |] eqn:Eh; [| discriminate].
  rewrite (byteAt_app buf extra k lo El), (byteAt_app buf extra _ hi Eh).
  exact H.
Qed.

Ltac extend_reads extra :=
  repeat match goal with
    | E : readUint8 ?b _ = Ok _ |- _ =>
        lazymatch b with
        | _ ++ _ => fail
        | _ => apply (readUint8_app b extra) in E
        end
    | E : readUint16LE ?b _ = Ok _ |- _ =>
        lazymatch b with
        | _ ++ _ => fail
        | _ => apply (readUint16LE_app b extra) in E
        end
    end.

(** X19: bytes after the ones a routine reads do not matter: a buffer that
    decodes keeps its snapshot when any bytes are appended, in all three
    routines; so a 64-byte wired report and the same report padded to 78
    bytes decode alike. *)
Theorem trailing_bytes_ignored (this : HIDProvider) (buf extra : ByteArray)
    (s : DualsenseHIDState) :
  (processUsbInputReport01 buf = Ok s ->
   processUsbInputReport01 (buf ++ extra) = Ok s)
  /\ (processBluetoothInputReport01 buf = Ok s ->
      processBluetoothInputReport01 (buf ++ extra) = Ok s)
  /\ (processOldInputReport this buf = Ok s ->
      processOldInputReport this (buf ++ extra) = Ok s).
Proof.
  split; [| split]; intros H.
  - unfold processUsbInputReport01 in H. cbv beta delta [bind] in H.
    invert_reads H. injection H as <-. extend_reads extra.
    unfold processUsbInputReport01. cbv beta delta [bind].
    rewrite_reads. reflexivity.
  - unfold processBluetoothInputReport01 in H. cbv beta delta [bind] in H.
    invert_reads H. injection H as <-. extend_reads extra.
    unfold processBluetoothInputReport01. cbv beta delta [bind].
    rewrite_reads. reflexivity.
  - unfold processOldInputReport in H. cbv zeta in H.
    cbv beta delta [bind] in H.
    invert_reads H. injection H as <-. extend_reads extra.
    unfold processOldInputReport. cbv zeta. cbv beta delta [bind].
    rewrite_reads. reflexivity.
Qed.

Lemma trailing_bytes_ignored_witness :
  exists s,
    processUsbInputReport01 sampleUsbReport = Ok s
    /\ processUsbInputReport01 (sampleUsbReport ++ repeat xff 14) = Ok s.
Proof.
  eexists. split; [vm_compute; reflexivity |].
  apply (proj1 (trailing_bytes_ignored idleProvider sampleUsbReport
                  (repeat xff 14) _)).
  vm_compute. reflexivity.
Defined.

(** X20: the first byte of a buffer, the report id, is never read: the
    current routines and the legacy routine give the same result, snapshot
    or failure, whatever that byte is. *)
Theorem report_id_ignored (this : HIDProvider) (b b' : byte)
    (rest : ByteArray) :
  processUsbInputReport01 (b :: rest) = processUsbInputReport01 (b' :: rest)
  /\ processBluetoothInputReport01 (b :: rest)
     = processBluetoothInputReport01 (b' :: rest)
  /\ processOldInputReport this (b :: rest)
     = processOldInputReport this (b' :: rest).
Proof.
  assert (Hoff : legacyOffset this = 0 \/ legacyOffset this = 1)
    by (unfold legacyOffset; destruct (wireless this) as [[|] |]; auto).
  split; [| split].
  - unfold processUsbInputReport01.
    repeat match goal with
      | |- context [readUint8 (?c :: rest) ?k] =>
          rewrite (readUint8_cons c rest k) by lia
      | |- context [readUint16LE (?c :: rest) ?k] =>
          rewrite (readUint16LE_cons c rest k) by lia
      end.
    reflexivity.
  - unfold processBluetoothInputReport01.
    repeat match goal with
      | |- context [readUint8 (?c :: rest) ?k] =>
          rewrite (readUint8_cons c rest k) by lia
      | |- context [readUint16LE (?c :: rest) ?k] =>
          rewrite (readUint16LE_cons c rest k) by lia
      end.
    reflexivity.
  - unfold processOldInputReport. fold (legacyOffset this). cbv zeta.
    repeat match goal with
      | |- context [readUint8 (?c :: rest) ?k] =>
          rewrite (readUint8_cons c rest k) by lia
      | |- context [readUint16LE (?c :: rest) ?k] =>
          rewrite (readUint16LE_cons c rest k) by lia
      end.
    reflexivity.
Qed.

(** ** The third button byte *)

Lemma byteValue_range (b : byte) : 0 <= byteValue b <= 255.
Proof.
  unfold byteValue. pose proof (Byte.to_N_bounded b). lia.
Qed.

Lemma byteAt_replace_same (pre post : ByteArray) (x : byte) (k : Z) :
  k = byteLength pre -> byteAt (pre ++ x :: post) k = Some (byteValue x).
Proof.
  intros ->. unfold byteAt, byteLength.
  destruct (Z.ltb_spec (Z.of_nat (List.length pre)) 0) as [Hneg | _]; [lia |].
  rewrite Nat2Z.id, nth_error_app2 by lia.
  rewrite Nat.sub_diag. reflexivity.
Qed.

Lemma byteAt_replace_other (pre post : ByteArray) (x x' : byte) (k : Z) :
  k <> byteLength pre ->
  byteAt (pre ++ x :: post) k = byteAt (pre ++ x' :: post) k.
Proof.
  intros Hk. unfold byteAt, byteLength in *.
  destruct (Z.ltb_spec k 0) as [Hneg | Hpos]; [reflexivity |].
  destruct (Nat.lt_ge_cases (Z.to_nat k) (List.length pre)) as [Hlt | Hge].
  - rewrite !nth_error_app1 by assumption. reflexivity.
  - rewrite !nth_error_app2 by assumption.
    destruct (Z.to_nat k - List.length pre)%nat as [| m] eqn:E; [lia |].
    reflexivity.
Qed.

Lemma readUint8_replace_same (pre post : ByteArray) (x : byte) (k : Z) :
  k = byteLength pre -> readUint8 (pre ++ x :: post) k = Ok (byteValue x).
Proof.
  intros Hk. unfold readUint8.
  rewrite (byteAt_replace_same pre post x k Hk). reflexivity.
Qed.

Lemma readUint8_replace_other (pre post : ByteArray) (x x' : byte) (k : Z) :
  k <> byteLength pre ->
  readUint8 (pre ++ x :: post) k = readUint8 (pre ++ x' :: post) k.
Proof.
  intros Hk. unfold readUint8.
  rewrite (byteAt_replace_other pre post x x' k Hk). reflexivity.
Qed.

Lemma readUint16LE_replace_other (pre post : ByteArray) (x x' : byte)
    (k : Z) :
  k <> byteLength pre -> k + 1 <> byteLength pre ->
  readUint16LE (pre ++ x :: post) k = readUint16LE (pre ++ x' :: post) k.
Proof.
  intros Hk Hk1. unfold readUint16LE.
  rewrite (byteAt_replace_other pre post x x' k Hk),
    (byteAt_replace_other pre post x x' (k + 1) Hk1).
  reflexivity.
Qed.

Lemma low_bits_decide (a b : Z) :
  0 <= a <= 255 -> 0 <= b <= 255 -> a mod 8 = b mod 8 ->
  (a .& 1 >? 0) = (b .& 1 >? 0)
  /\ (a .& 2 >? 0) = (b .& 2 >? 0)
  /\ (a .& 4 >? 0) = (b .& 4 >? 0).
Proof.
  intros Ha Hb Hmod.
  rewrite (last_bits_recovered a Ha), (last_bits_recovered b Hb) in Hmod.
  destruct (a .& 1 >? 0), (a .& 2 >? 0), (a .& 4 >? 0),
           (b .& 1 >? 0), (b .& 2 >? 0), (b .& 4 >? 0);
    cbn [Z.b2z] in Hmod; first [lia | repeat split; reflexivity].
Qed.

(** Moves every read that does not touch the replaced byte from the buffer
    holding [x] to the one holding [x']. *)
Ltac reads_past_replaced pre x x' post :=
  repeat match goal with
    | |- context [readUint8 (pre ++ x :: post) ?k] =>
        rewrite (readUint8_replace_other pre post x x' k) by lia
    | |- context [readUint16LE (pre ++ x :: post) ?k] =>
        rewrite (readUint16LE_replace_other pre post x x' k) by lia
    end.

Lemma usb_third_button_byte (pre post : ByteArray) (x x' : byte) :
  byteLength pre = 10 -> byteValue x mod 8 = byteValue x' mod 8 ->
  processUsbInputReport01 (pre ++ x :: post)
  = processUsbInputReport01 (pre ++ x' :: post).
Proof.
  intros Hlen Hmod.
  destruct (low_bits_decide _ _ (byteValue_range x) (byteValue_range x') Hmod)
    as (H1 & H2 & H4).
  unfold processUsbInputReport01.
  reads_past_replaced pre x x' post.
  rewrite (readUint8_replace_same pre post x 10),
    (readUint8_replace_same pre post x' 10) by lia.
  cbv beta iota delta [bind].
  rewrite H1, H2, H4. reflexivity.
Qed.

Lemma legacy_third_button_byte (this : HIDProvider) (pre post : ByteArray)
    (x x' : byte) :
  byteLength pre = 11 - legacyOffset this ->
  byteValue x mod 8 = byteValue x' mod 8 ->
  processOldInputReport this (pre ++ x :: post)
  = processOldInputReport this (pre ++ x' :: post).
Proof.
  intros Hlen Hmod.
  assert (Hoff : legacyOffset this = 0 \/ legacyOffset this = 1)
    by (unfold legacyOffset; destruct (wireless this) as [[|] |]; auto).
  destruct (low_bits_decide _ _ (byteValue_range x) (byteValue_range x') Hmod)
    as (H1 & H2 & H4).
  unfold processOldInputReport. fold (legacyOffset this). cbv zeta.
  reads_past_replaced pre x x' post.
  rewrite (readUint8_replace_same pre post x (11 - legacyOffset this)),
    (readUint8_replace_same pre post x' (11 - legacyOffset this)) by lia.
  cbv beta iota delta [bind].
  rewrite H1, H2, H4. reflexivity.
Qed.

Lemma bluetooth01_third_button_byte (buf buf' : ByteArray)
    (s : DualsenseHIDState) :
  processBluetoothInputReport01 buf = Ok s ->
  processBluetoothInputReport01 buf' = Ok s ->
  readUint8 buf 8 = readUint8 buf' 8 /\ readUint8 buf 9 = readUint8 buf' 9.
Proof.
  intros H H'.
  unfold processBluetoothInputReport01 in H. cbv beta delta [bind] in H.
  invert_reads H. injection H as <-.
  unfold processBluetoothInputReport01 in H'. cbv beta delta [bind] in H'.
  invert_reads H'. note_byte_ranges. injection H'; intros. clear H'.
  bytes_of_fields.
  split; congruence.
Qed.

(** X11: the button bytes are recovered from the snapshot in each routine:
    the first is 128 Triangle + 64 Circle + 32 Cross + 16 Square + Dpad,
    the second the eight misc buttons from LeftBumper (bit 0) to
    RightAnalogButton (bit 7), and the low three bits of the third are
    Playstation, TouchButton and Mute.  In [processUsbInputReport01] and
    [processOldInputReport] the five high bits of the third byte are
    ignored: replacing that byte by one with the same low three bits leaves
    the result unchanged.  In [processBluetoothInputReport01] they are not:
    the second and third byte are also the triggers, and the snapshot
    determines both in full. *)
Theorem button_bytes_recovered :
  (forall buf s, processUsbInputReport01 buf = Ok s -> buttonBytes buf 8 s)
  /\ (forall buf s,
         processBluetoothInputReport01 buf = Ok s -> buttonBytes buf 7 s)
  /\ (forall this buf s,
         processOldInputReport this buf = Ok s ->
         buttonBytes buf (9 - legacyOffset this) s)
  /\ (forall pre post x x',
         byteLength pre = 10 -> byteValue x mod 8 = byteValue x' mod 8 ->
         processUsbInputReport01 (pre ++ x :: post)
         = processUsbInputReport01 (pre ++ x' :: post))
  /\ (forall this pre post x x',
         byteLength pre = 11 - legacyOffset this ->
         byteValue x mod 8 = byteValue x' mod 8 ->
         processOldInputReport this (pre ++ x :: post)
         = processOldInputReport this (pre ++ x' :: post))
  /\ (forall buf buf' s,
         processBluetoothInputReport01 buf = Ok s ->
         processBluetoothInputReport01 buf' = Ok s ->
         readUint8 buf 8 = readUint8 buf' 8
         /\ readUint8 buf 9 = readUint8 buf' 9).
Proof.
  split; [exact usb_button_bytes |].
  split; [exact bluetooth01_button_bytes |].
  split; [exact legacy_button_bytes |].
  split; [exact usb_third_button_byte |].
  split; [exact legacy_third_button_byte |].
  exact bluetooth01_third_button_byte.
Qed.

(** The wired sample report with its third button byte 0x02 replaced by
    0xFA decodes alike; the Bluetooth sample report has 0x21 and 0x04 as
    its second and third button byte. *)
Lemma button_bytes_recovered_witness :
  (exists s,
      processUsbInputReport01 sampleUsbReport = Ok s
      /\ buttonBytes sampleUsbReport 8 s
      /\ buttonsByte s = 0x27 /\ miscByte s = 0x05 /\ lastBits s = 0x02)
  /\ processUsbInputReport01
       (firstn 10 sampleUsbReport ++ x02 :: skipn 11 sampleUsbReport)
     = processUsbInputReport01
         (firstn 10 sampleUsbReport ++ xfa :: skipn 11 sampleUsbReport)
  /\ (exists s,
      processBluetoothInputReport01 sampleBluetoothReport = Ok s
      /\ buttonBytes sampleBluetoothReport 7 s
      /\ readUint8 sampleBluetoothReport 8
         = readUint8 (sampleBluetoothReport ++ [xff]) 8).
Proof.
  destruct button_bytes_recovered as (Husb & Hbt & _ & Hhigh & _ & Hkept).
  split; [| split].
  - eexists. split; [vm_compute; reflexivity |].
    split; [| repeat split; reflexivity].
    apply (Husb sampleUsbReport). vm_compute. reflexivity.
  - apply (Hhigh (firstn 10 sampleUsbReport) (skipn 11 sampleUsbReport)
             x02 xfa); reflexivity.
  - eexists. split; [vm_compute; reflexivity |].
    split.
    + apply (Hbt sampleBluetoothReport). vm_compute. reflexivity.
    + apply (proj1 (Hkept sampleBluetoothReport
                      (sampleBluetoothReport ++ [xff]) _
                      ltac:(vm_compute; reflexivity)
                      ltac:(vm_compute; reflexivity))).
Defined.
